(** * Motia VS Code extension: the server lifecycle coordinator

    A shallow embedding of [src/utilities/serverManager.ts] (the static class
    [ServerManager]), of its earlier revision that probes with [net.Socket],
    of [src/utilities/projectDetector.ts] ([isMotiaProject]), and of the
    parts of [src/workbenchPanel.ts] and [src/extension.ts] that call them.

    The extension runs on one JavaScript thread.  Every [await] and every
    [setTimeout] of the source is a suspension point: the rest of the function
    is kept as a pending task and resumed by a later turn of the event loop.
    The embedding makes this explicit: [ServerManager.step] runs one turn, and
    an interleaving is a list of turns.

    What lies outside the class is an input of the model: the settings, the
    clock, what the peer on the port does with a request, whether a command
    exists, what the file system holds.  The editor's terminals and messages
    are recorded in a log. *)

From stdpp Require Import gmap strings list pretty.
From Stdlib Require Import ZArith Lia.

Local Open Scope Z_scope.

(** ** Promises *)

Inductive promise (A E : Type) : Type :=
| Pending
| Fulfilled (v : A)
| RejectedWith (e : E).
Arguments Pending {A E}.
Arguments Fulfilled {A E} v.
Arguments RejectedWith {A E} e.

(** [resolve(v)]: settles a pending promise, and does nothing to a settled one. *)
Definition resolve {A E} (v : A) (p : promise A E) : promise A E :=
  match p with
  | Pending => Fulfilled v
  | _ => p
  end.

(** ** Errors *)

(** What the promises of [ServerManager] are rejected with.  The first three
    are the [Error]s the class makes itself; [SocketBadPort] is the
    [RangeError] ([ERR_SOCKET_BAD_PORT]) that Node throws when it is asked to
    connect to a port that is not one. *)
Inductive error : Type :=
| InvalidNodejsPath
| NoLauncher
| StartupTimeout
| SocketBadPort (port : Z).

(** ** The reachability probe, [ServerManager.checkIfServerRunning] *)

Module Probe.

(** The [timeout] option of the request, in milliseconds. *)
Definition timeout : Z := 1000.

(** What the peer at [127.0.0.1:port] does with one [GET /]. Delays are
    counted in milliseconds from [req.end()]. *)
Inductive remote : Type :=
| Refuses (after : N)                    (* the connection fails *)
| Responds (after : N) (statusCode : Z)  (* a response head arrives *)
| Silent.                                (* nothing ever comes back *)

(** The callbacks the source registers on the request. *)
Inductive req_event : Type :=
| OnResponse (statusCode : Z)
| OnError
| OnTimeout.

(** The events the request emits, in order.  A peer that has done nothing
    when the idle timer expires gives ['timeout']; the handler then calls
    [req.destroy()], which makes the request emit ['error'] as well. *)
Definition emitted (r : remote) : list req_event :=
  match r with
  | Refuses after =>
      if Z.of_N after <? timeout then [OnError] else [OnTimeout; OnError]
  | Responds after statusCode =>
      if Z.of_N after <? timeout then [OnResponse statusCode]
      else [OnTimeout; OnError]
  | Silent => [OnTimeout; OnError]
  end.

(** Milliseconds until the first event. *)
Definition duration (r : remote) : Z :=
  match r with
  | Refuses after | Responds after _ => Z.min (Z.of_N after) timeout
  | Silent => timeout
  end.

(** One callback of the promise executor. *)
Definition handle {E} (p : promise bool E) (ev : req_event) : promise bool E :=
  match ev with
  | OnResponse statusCode =>
      if statusCode =? 200 then resolve true p else resolve false p
  | OnError => resolve false p
  | OnTimeout => resolve false p
  end.

(** The ports Node connects to.  For any other number [http.request]
    throws before a request exists.  (With 0 it connects to its default
    port, and the peer is whatever listens there.) *)
Definition valid_port (port : Z) : bool := (0 <=? port) && (port <=? 65535).

(** The promise once the request has been made: the callbacks in the order
    of the events. *)
Definition request {E} (r : remote) : promise bool E :=
  fold_left handle (emitted r) Pending.

(** [checkIfServerRunning(port)] against a peer behaving as [r].  The
    executor calls [http.request] in its first statement; an exception
    thrown inside an executor rejects the promise, and the executor has no
    handler of its own. *)
Definition checkIfServerRunning (port : Z) (r : remote) : promise bool error :=
  if valid_port port then request r else RejectedWith (SocketBadPort port).

(** The peer does not serve the port. *)
Definition unreachable (r : remote) : Prop :=
  match r with
  | Refuses _ | Silent => True
  | Responds after _ => timeout <= Z.of_N after
  end.

End Probe.

(** The earlier revision connects a raw socket instead. *)
Module LegacyProbe.

Definition timeout : Z := 1000.

Inductive peer : Type :=
| Refuses (after : N)
| Accepts (after : N)
| Silent.

Inductive socket_event : Type :=
| OnConnect
| OnError
| OnTimeout.

Definition emitted (r : peer) : list socket_event :=
  match r with
  | Refuses after =>
      if Z.of_N after <? timeout then [OnError] else [OnTimeout]
  | Accepts after =>
      if Z.of_N after <? timeout then [OnConnect] else [OnTimeout]
  | Silent => [OnTimeout]
  end.

Definition duration (r : peer) : Z :=
  match r with
  | Refuses after | Accepts after => Z.min (Z.of_N after) timeout
  | Silent => timeout
  end.

(** [onError] serves both ['error'] and ['timeout']. *)
Definition handle {E} (p : promise bool E) (ev : socket_event) : promise bool E :=
  match ev with
  | OnConnect => resolve true p
  | OnError | OnTimeout => resolve false p
  end.

(** [socket.connect] checks the port as [http.request] does. *)
Definition valid_port (port : Z) : bool := (0 <=? port) && (port <=? 65535).

Definition request {E} (r : peer) : promise bool E :=
  fold_left handle (emitted r) Pending.

(** The handlers are registered first; [socket.connect(port, ...)] throws
    inside the executor for a port that is not one. *)
Definition checkIfServerRunning (port : Z) (r : peer) : promise bool error :=
  if valid_port port then request r else RejectedWith (SocketBadPort port).

Definition unreachable (r : peer) : Prop :=
  match r with
  | Refuses _ | Silent => True
  | Accepts after => timeout <= Z.of_N after
  end.

End LegacyProbe.

(** ** Strings as the source tests them *)

Definition truthy (s : string) : bool :=
  match s with
  | EmptyString => false
  | String _ _ => true
  end.

(** A string of the model holds the UTF-8 bytes of the text, which is how
    [exec] receives the output of a process before it decodes it.
    [String.prototype.trim] removes the code points that ECMAScript calls
    white space or line terminators: U+0009 to U+000D, U+0020, U+00A0,
    U+1680, U+2000 to U+200A, U+2028, U+2029, U+202F, U+205F, U+3000 and
    U+FEFF.  In UTF-8 the first six are one byte each, U+00A0 is two bytes,
    and the others are three. *)
Definition is_space (a : Ascii.ascii) : bool :=
  let n := Ascii.nat_of_ascii a in
  ((9 <=? n)%nat && (n <=? 13)%nat) || (n =? 32)%nat.

(** U+00A0 is [C2 A0]. *)
Definition is_space2 (a b : Ascii.ascii) : bool :=
  let a := Ascii.nat_of_ascii a in
  let b := Ascii.nat_of_ascii b in
  ((a =? 194) && (b =? 160))%nat.

(** U+1680 is [E1 9A 80]; U+2000 to U+200A are [E2 80 80] to [E2 80 8A];
    U+2028, U+2029 and U+202F are [E2 80 A8], [E2 80 A9] and [E2 80 AF];
    U+205F is [E2 81 9F]; U+3000 is [E3 80 80]; U+FEFF is [EF BB BF]. *)
Definition is_space3 (a b c : Ascii.ascii) : bool :=
  let a := Ascii.nat_of_ascii a in
  let b := Ascii.nat_of_ascii b in
  let c := Ascii.nat_of_ascii c in
  ((a =? 225) && (b =? 154) && (c =? 128)
   || (a =? 226) && (b =? 128)
      && ((128 <=? c) && (c <=? 138) || (c =? 168) || (c =? 169) || (c =? 175))
   || (a =? 226) && (b =? 129) && (c =? 159)
   || (a =? 227) && (b =? 128) && (c =? 128)
   || (a =? 239) && (b =? 187) && (c =? 191))%nat.

(** Removes the white space at the head of [l].  With [backwards] the bytes
    of [l] are those of the text from its end, so that a character of
    several bytes comes last byte first.  Every multi-byte pattern starts
    with a byte that begins a character, so what is removed is a whole
    number of characters also when the text is not well-formed UTF-8. *)
Fixpoint strip (backwards : bool) (l : list Ascii.ascii) : list Ascii.ascii :=
  match l with
  | [] => []
  | x :: l1 =>
      if is_space x then strip backwards l1
      else match l1 with
           | [] => l
           | y :: l2 =>
               if (if backwards then is_space2 y x else is_space2 x y)
               then strip backwards l2
               else match l2 with
                    | [] => l
                    | z :: l3 =>
                        if (if backwards then is_space3 z y x
                            else is_space3 x y z)
                        then strip backwards l3
                        else l
                    end
           end
  end.

Definition trimStart (s : string) : string :=
  String.string_of_list_ascii (strip false (String.list_ascii_of_string s)).

Definition trimEnd (s : string) : string :=
  String.string_of_list_ascii
    (rev (strip true (rev (String.list_ascii_of_string s)))).

Definition trim (s : string) : string := trimEnd (trimStart s).

(** [s.startsWith(p)] *)
Definition startsWith (s p : string) : bool := String.prefix p s.

(** ** The coordinator, [ServerManager] *)

Module ServerManager.

Definition terminal : Type := nat.

(** The static fields of the class. *)
Record manager : Type := Manager {
  _terminal : option terminal;
  _isRunning : bool;
  _serverPort : Z;
  _serverStartTime : Z;
}.

Definition _maxStartupTime : Z := 30000.
Definition checkInterval : Z := 500.

Definition initial : manager :=
  {| _terminal := None; _isRunning := false;
     _serverPort := 3000; _serverStartTime := 0 |}.

(** [vscode.workspace.getConfiguration('motia')] *)
Record configuration : Type := Configuration {
  serverPort : Z;
  nodejsPath : string;
}.

Definition defaults : configuration :=
  {| serverPort := 3000; nodejsPath := "" |}.

Inductive package_manager : Type := Npx | Pnpm | Yarn.

Inductive launcher : Type :=
| CustomNpx (nodejsPath : string)
| Via (pm : package_manager).

(** [<launcher> motia dev --verbose --port <port>] *)
Record command : Type := Command {
  runner : launcher;
  port : Z;
}.

Inductive message : Type :=
| AlreadyRunning (port : Z)
| Started (port : Z)
| StartupFailed (seconds : Z)
| NoPackageManager
| Stopped
| NoServerRunning
| StillRunning (port : Z)
| UsingSystemNode
| NodeNotFound (nodejsPath : string)
| NodeValidated (version : string)
| NodeInvalid
| NodeFailed.

(** What the class does to the editor and to the network. *)
Inductive effect : Type :=
| CreateTerminal (t : terminal)
| SendText (t : terminal) (cmd : command)
| ShowTerminal (t : terminal)
| DisposeTerminal (t : terminal)
| ShowInformationMessage (m : message)
| ShowErrorMessage (m : message)
| ShowWarningMessage (m : message)
| HttpGet (port : Z)           (* [http.request] is called for this port *)
| OpenWorkbenchAfter (delay : Z).

(** The rest of a call, parked at an [await] or a [setTimeout]. *)
Inductive task : Type :=
| StartValidating (extensionUri : bool) (nodejsPath : string)
| StartProbing (extensionUri : bool) (nodejsPath : string) (port since : Z)
| StartCommandExists (extensionUri : bool) (pm : package_manager) (port : Z)
| PollWaiting (extensionUri : bool) (due : Z)
| PollProbing (extensionUri : bool) (port since : Z)
| StopProbing (port since : Z)
| IsRunningProbing (port since : Z).

(** How the promise a call returned has ended.  [StartHung] and [StopHung]:
    the async executor threw, so neither [resolve] nor [reject] is ever
    called. *)
Inductive outcome : Type :=
| StartResolved
| StartRejected (e : error)
| StartHung
| StopResolved
| StopHung
| IsRunningResolved (b : bool)
| IsRunningRejected (e : error).

Record world : Type := World {
  mgr : manager;
  config : configuration;
  now : Z;                      (* Date.now() *)
  live : gset terminal;         (* created and not disposed *)
  next_terminal : terminal;
  log : list effect;            (* newest first *)
  next_call : nat;
  tasks : gmap nat task;
  outcomes : gmap nat outcome;
}.

Definition boot : world :=
  {| mgr := initial; config := defaults; now := 0; live := ∅;
     next_terminal := 0%nat; log := []; next_call := 0%nat;
     tasks := ∅; outcomes := ∅ |}.

(** *** Field updates *)

Definition set_mgr (m : manager) (w : world) : world :=
  World m (config w) (now w) (live w) (next_terminal w) (log w)
        (next_call w) (tasks w) (outcomes w).

Definition set_config (cfg : configuration) (w : world) : world :=
  World (mgr w) cfg (now w) (live w) (next_terminal w) (log w)
        (next_call w) (tasks w) (outcomes w).

Definition set_now (t : Z) (w : world) : world :=
  World (mgr w) (config w) t (live w) (next_terminal w) (log w)
        (next_call w) (tasks w) (outcomes w).

Definition emit (e : effect) (w : world) : world :=
  World (mgr w) (config w) (now w) (live w) (next_terminal w) (e :: log w)
        (next_call w) (tasks w) (outcomes w).

Definition suspend (c : nat) (t : task) (w : world) : world :=
  World (mgr w) (config w) (now w) (live w) (next_terminal w) (log w)
        (next_call w) (<[c:=t]> (tasks w)) (outcomes w).

Definition settle (c : nat) (o : outcome) (w : world) : world :=
  World (mgr w) (config w) (now w) (live w) (next_terminal w) (log w)
        (next_call w) (delete c (tasks w)) (<[c:=o]> (outcomes w)).

Definition called (w : world) : world :=
  World (mgr w) (config w) (now w) (live w) (next_terminal w) (log w)
        (S (next_call w)) (tasks w) (outcomes w).

Definition set_terminal (t : option terminal) (m : manager) : manager :=
  Manager t (_isRunning m) (_serverPort m) (_serverStartTime m).
Definition set_isRunning (b : bool) (m : manager) : manager :=
  Manager (_terminal m) b (_serverPort m) (_serverStartTime m).
Definition set_serverPort (p : Z) (m : manager) : manager :=
  Manager (_terminal m) (_isRunning m) p (_serverStartTime m).
Definition set_serverStartTime (t : Z) (m : manager) : manager :=
  Manager (_terminal m) (_isRunning m) (_serverPort m) t.

(** [this._terminal = vscode.window.createTerminal('Motia Dev Server')] *)
Definition createTerminal (w : world) : world :=
  let t := next_terminal w in
  World (set_terminal (Some t) (mgr w)) (config w) (now w)
        ({[t]} ∪ live w) (S t) (CreateTerminal t :: log w)
        (next_call w) (tasks w) (outcomes w).

(** [terminal.dispose()] *)
Definition dispose (t : terminal) (w : world) : world :=
  World (mgr w) (config w) (now w) (live w ∖ {[t]}) (next_terminal w)
        (DisposeTerminal t :: log w) (next_call w) (tasks w) (outcomes w).

(** *** The code, one stretch between suspension points at a time *)

(** [this.checkIfServerRunning(this._serverPort)], awaited. *)
Definition probe_then (c : nat) (k : Z → Z → task) (w : world) : world :=
  let p := _serverPort (mgr w) in
  suspend c (k p (now w)) (emit (HttpGet p) w).

(** [validateNodejsPath]: [found] is [fs.existsSync(nodejsPath)]; [version]
    is the standard output of [node --version], or [None] if it failed. *)
Definition validateNodejsPath (nodejsPath : string) (found : bool)
    (version : option string) : bool * effect :=
  if negb (truthy nodejsPath) then (true, ShowInformationMessage UsingSystemNode)
  else if negb found then (false, ShowErrorMessage (NodeNotFound nodejsPath))
  else match version with
       | Some stdout =>
           if truthy stdout && startsWith (trim stdout) "v"
           then (true, ShowInformationMessage (NodeValidated (trim stdout)))
           else (false, ShowErrorMessage NodeInvalid)
       | None => (false, ShowErrorMessage NodeFailed)
       end.

(** [startServer], lines 43-58: up to the first [await]. *)
Definition startServer (c : nat) (extensionUri : bool) (w : world) : world :=
  let w := set_mgr (set_serverPort (serverPort (config w)) (mgr w)) w in
  let path := nodejsPath (config w) in
  if truthy path then suspend c (StartValidating extensionUri path) w
  else probe_then c (StartProbing extensionUri path) w.

(** Lines 51-58. *)
Definition start_validated (c : nat) (extensionUri : bool) (path : string)
    (isValid : bool) (w : world) : world :=
  if isValid then probe_then c (StartProbing extensionUri path) w
  else settle c (StartRejected InvalidNodejsPath) w.

(** [_pollServerStatus]: [setTimeout(checkServer, checkInterval)]. *)
Definition _pollServerStatus (c : nat) (extensionUri : bool) (w : world) : world :=
  suspend c (PollWaiting extensionUri (now w + checkInterval)) w.

(** Lines 96-103. [this._terminal] is read again here. *)
Definition launch (c : nat) (extensionUri : bool) (cmd : command) (w : world) : world :=
  match _terminal (mgr w) with
  | None => settle c StartHung w
  | Some t =>
      let w := emit (SendText t cmd) w in
      let w := emit (ShowTerminal t) w in
      let w := set_mgr (set_serverStartTime (now w) (mgr w)) w in
      _pollServerStatus c extensionUri w
  end.

(** Lines 59-83. *)
Definition start_probed (c : nat) (extensionUri : bool) (path : string)
    (isRunning : bool) (w : world) : world :=
  if isRunning then
    let w := emit (ShowInformationMessage (AlreadyRunning (_serverPort (mgr w)))) w in
    let w := set_mgr (set_isRunning true (mgr w)) w in
    let w := if extensionUri then emit (OpenWorkbenchAfter 100) w else w in
    settle c StartResolved w
  else
    let w := createTerminal w in
    let p := _serverPort (mgr w) in
    if truthy path then launch c extensionUri (Command (CustomNpx path) p) w
    else suspend c (StartCommandExists extensionUri Npx p) w.

(** Lines 83-94: the answer of [commandExists(pm)]. *)
Definition start_command_checked (c : nat) (extensionUri : bool) (pm : package_manager)
    (p : Z) (found : bool) (w : world) : world :=
  if found then launch c extensionUri (Command (Via pm) p) w
  else match pm with
       | Npx => suspend c (StartCommandExists extensionUri Pnpm p) w
       | Pnpm => suspend c (StartCommandExists extensionUri Yarn p) w
       | Yarn =>
           let w := emit (ShowErrorMessage NoPackageManager) w in
           settle c (StartRejected NoLauncher) w
       end.

(** [checkServer], lines 121-153, after its probe has settled. *)
Definition checkServer (c : nat) (extensionUri : bool)
    (probed : promise bool error) (w : world) : world :=
  match probed with
  | Fulfilled true =>
      let w := set_mgr (set_isRunning true (mgr w)) w in
      let w := emit (ShowInformationMessage (Started (_serverPort (mgr w)))) w in
      let w := if extensionUri then emit (OpenWorkbenchAfter 500) w else w in
      settle c StartResolved w
  | Fulfilled false =>
      if now w - _serverStartTime (mgr w) >? _maxStartupTime then
        let w := emit (ShowErrorMessage (StartupFailed (_maxStartupTime / 1000))) w in
        let w := set_mgr (set_isRunning false (mgr w)) w in
        settle c (StartRejected StartupTimeout) w
      else suspend c (PollWaiting extensionUri (now w + checkInterval)) w
  | RejectedWith e => settle c (StartRejected e) w
  | Pending => w
  end.

(** [stopServer], lines 166-176. *)
Definition stopServer (c : nat) (w : world) : world :=
  let w :=
    match _terminal (mgr w) with
    | Some t =>
        let w := dispose t w in
        let w := set_mgr (set_terminal None (mgr w)) w in
        let w := set_mgr (set_isRunning false (mgr w)) w in
        emit (ShowInformationMessage Stopped) w
    | None => emit (ShowInformationMessage NoServerRunning) w
    end in
  probe_then c StopProbing w.

(** Lines 177-183. *)
Definition stop_probed (c : nat) (isStillRunning : bool) (w : world) : world :=
  let w := if isStillRunning
           then emit (ShowWarningMessage (StillRunning (_serverPort (mgr w)))) w
           else w in
  settle c StopResolved w.

(** [isServerRunning] *)
Definition isServerRunning (c : nat) (w : world) : world :=
  probe_then c IsRunningProbing w.

(** [getServerStatus] *)
Definition getServerStatus (w : world) : bool := _isRunning (mgr w).

(** *** The event loop *)

Inductive event : Type :=
| Advance (ms : N)                       (* the clock moves on *)
| ChangeSettings (cfg : configuration)   (* the user edits the settings *)
| CallStart (extensionUri : bool)
| CallStop
| CallIsServerRunning
| ValidateDone (c : nat) (found : bool) (version : option string)
| ProbeDone (c : nat) (r : Probe.remote)
| CommandExistsDone (c : nat) (found : bool)  (* [commandExists] has answered *)
| TimerFired (c : nat).

(** A probe issued at [since] cannot settle before its first event.  (A
    probe that Node rejects is settled when it is made; the turn that
    resumes its caller is written [ProbeDone c r] all the same, and a peer
    [r] of duration 0 lets it come at once.) *)
Definition settled_by (since : Z) (r : Probe.remote) (w : world) : bool :=
  since + Probe.duration r <=? now w.

Definition step (w : world) (ev : event) : option world :=
  match ev with
  | Advance ms => Some (set_now (now w + Z.of_N ms) w)
  | ChangeSettings cfg => Some (set_config cfg w)
  | CallStart extensionUri => Some (startServer (next_call w) extensionUri (called w))
  | CallStop => Some (stopServer (next_call w) (called w))
  | CallIsServerRunning => Some (isServerRunning (next_call w) (called w))
  | ValidateDone c found version =>
      match tasks w !! c with
      | Some (StartValidating extensionUri path) =>
          let '(isValid, shown) := validateNodejsPath path found version in
          Some (start_validated c extensionUri path isValid (emit shown w))
      | _ => None
      end
  | ProbeDone c r =>
      match tasks w !! c with
      | Some (StartProbing extensionUri path p since) =>
          if settled_by since r w then
            match Probe.checkIfServerRunning p r with
            | Fulfilled isRunning => Some (start_probed c extensionUri path isRunning w)
            | RejectedWith _ => Some (settle c StartHung w)
            | Pending => None
            end
          else None
      | Some (PollProbing extensionUri p since) =>
          if settled_by since r w then
            match Probe.checkIfServerRunning p r with
            | Pending => None
            | probed => Some (checkServer c extensionUri probed w)
            end
          else None
      | Some (StopProbing p since) =>
          if settled_by since r w then
            match Probe.checkIfServerRunning p r with
            | Fulfilled isStillRunning => Some (stop_probed c isStillRunning w)
            | RejectedWith _ => Some (settle c StopHung w)
            | Pending => None
            end
          else None
      | Some (IsRunningProbing p since) =>
          if settled_by since r w then
            match Probe.checkIfServerRunning p r with
            | Fulfilled b => Some (settle c (IsRunningResolved b) w)
            | RejectedWith e => Some (settle c (IsRunningRejected e) w)
            | Pending => None
            end
          else None
      | _ => None
      end
  | CommandExistsDone c found =>
      match tasks w !! c with
      | Some (StartCommandExists extensionUri pm p) =>
          Some (start_command_checked c extensionUri pm p found w)
      | _ => None
      end
  | TimerFired c =>
      match tasks w !! c with
      | Some (PollWaiting extensionUri due) =>
          if due <=? now w then Some (probe_then c (PollProbing extensionUri) w)
          else None
      | _ => None
      end
  end.

(** An interleaving: the turns of the event loop, in order. *)
Fixpoint run (w : world) (evs : list event) : option world :=
  match evs with
  | [] => Some w
  | ev :: evs' => w' ← step w ev; run w' evs'
  end.

(** *** Runs of one call with nothing else in between *)

(** The peer answers [200] in time: a probe that reaches [r] reports a
    running server. *)
Definition succeeds (r : Probe.remote) : bool :=
  match Probe.request (E:=error) r with
  | Fulfilled true => true
  | _ => false
  end.

Definition wait (ms : Z) : event := Advance (Z.to_N ms).

(** The turns that take the poll of call [c] through its next probe,
    each as soon as it can happen. *)
Definition resume_poll (w : world) (c : nat) (r : Probe.remote) : list event :=
  match tasks w !! c with
  | Some (PollWaiting _ due) =>
      [wait (due - now w); TimerFired c; wait (Probe.duration r); ProbeDone c r]
  | Some (PollProbing _ _ since) =>
      [wait (since + Probe.duration r - now w); ProbeDone c r]
  | _ => []
  end.

(** Polls call [c] against the peers [rs], one per probe, until the call
    has settled; [None] if the peers run out first. *)
Fixpoint poll_until_settled (c : nat) (rs : list Probe.remote) (w : world)
    : option world :=
  match outcomes w !! c with
  | Some _ => Some w
  | None =>
      match rs with
      | [] => None
      | r :: rs' => w' ← run w (resume_poll w c r); poll_until_settled c rs' w'
      end
  end.

(** One [startServer] call up to the answer of its first probe, or up to
    its rejection if the path is refused before any probe. *)
Definition solo_start (w : world) (extensionUri found : bool)
    (version : option string) (r : Probe.remote) : option world :=
  let c := next_call w in
  w1 ← step w (CallStart extensionUri);
  w2 ← (if truthy (nodejsPath (config w))
        then step w1 (ValidateDone c found version) else Some w1);
  match tasks w2 !! c with
  | Some (StartProbing _ _ _ _) => run w2 [wait (Probe.duration r); ProbeDone c r]
  | _ => Some w2
  end.

(** One [stopServer] call, to the end. *)
Definition solo_stop (w : world) (r : Probe.remote) : option world :=
  run w [CallStop; wait (Probe.duration r); ProbeDone (next_call w) r].

(** Call [c] is a [startServer] that has launched and is polling. *)
Definition mid_poll (w : world) (c : nat) : bool :=
  match tasks w !! c with
  | Some (PollWaiting _ _) | Some (PollProbing _ _ _) => true
  | _ => false
  end.

(** The port of the probe the poll of call [c] waits for, or sends next. *)
Definition poll_port (w : world) (c : nat) : Z :=
  match tasks w !! c with
  | Some (PollProbing _ p _) => p
  | _ => _serverPort (mgr w)
  end.

Definition is_call_start (ev : event) : bool :=
  match ev with
  | CallStart _ => true
  | _ => false
  end.

(** The port the latest [startServer] of [evs] has read from the settings;
    [cfg] and [p] are the settings and the cached port before [evs]. *)
Fixpoint captured_port (cfg : configuration) (p : Z) (evs : list event) : Z :=
  match evs with
  | [] => p
  | ChangeSettings cfg' :: evs' => captured_port cfg' p evs'
  | CallStart _ :: evs' => captured_port cfg (serverPort cfg) evs'
  | _ :: evs' => captured_port cfg p evs'
  end.

(** What a [stopServer] with no terminal owned adds to the log. *)
Definition idle_stop_log (p : Z) (r : Probe.remote) : list effect :=
  (if succeeds r then [ShowWarningMessage (StillRunning p)] else [])
  ++ [HttpGet p; ShowInformationMessage NoServerRunning].



(** What every run from [boot] keeps true: terminals are numbered upwards,
    the terminal the class owns is one it has created and not disposed, and
    the pending tasks belong to calls already made. *)
Definition consistent (w : world) : Prop :=
  (∀ t, t ∈ live w → (t < next_terminal w)%nat)
  ∧ (∀ t, _terminal (mgr w) = Some t → t ∈ live w)
  ∧ (∀ c t, tasks w !! c = Some t → (c < next_call w)%nat).

(** The settings name 65536 as the port, and a first [startServer] has read
    it: its probe has been rejected and the call is left pending. *)
Definition bad_port_start : world :=
  default boot (run boot [ChangeSettings (Configuration 65536 "");
                          CallStart false; ProbeDone 0 (Probe.Refuses 0)]).

(** A first [startServer] has found the port closed, created its terminal,
    and is asking for [npx]. *)
Definition looking_up : world :=
  default boot (run boot [CallStart false; ProbeDone 0 (Probe.Refuses 0)]).

(** One round of the polls of the calls [cs] against a peer that refuses at
    once: the timers fire when they are due, 500 ms after the probes before,
    and each probe is answered as it is sent. *)
Definition refused_round (cs : list nat) : list event :=
  wait checkInterval
  :: mjoin ((λ c, [TimerFired c; ProbeDone c (Probe.Refuses 0)]) <$> cs).

(** A first start launches at 0 and polls a closed port, on time, for 29
    seconds; then a second start launches; both go on polling, on time, and
    the first one's timer of 58.5 seconds has just fired. *)
Definition overtaken : list event :=
  mjoin (replicate 58 (refused_round [0%nat]))
  ++ [CallStart false; ProbeDone 1 (Probe.Refuses 0); CommandExistsDone 1 true]
  ++ mjoin (replicate 58 (refused_round [0%nat; 1%nat]))
  ++ [wait checkInterval; TimerFired 0].

(** That start has found [npx], sent its command, and waits for its first
    timer. *)
Definition polling : world :=
  default boot (run boot [CallStart false; ProbeDone 0 (Probe.Refuses 0);
                          CommandExistsDone 0 true]).

(** *** The statements examined *)

(** A [stopServer] called while a [startServer] polls cancels it: once
    every call has settled, with no further [startServer], the cached state
    is not running and the start has been rejected. *)
Definition stop_cancels_start : Prop :=
  ∀ (evs1 evs2 : list event) (w1 w2 : world) (c : nat),
    run boot evs1 = Some w1 →
    mid_poll w1 c = true →
    forallb (λ ev, negb (is_call_start ev)) evs2 = true →
    run w1 (CallStop :: evs2) = Some w2 →
    tasks w2 = ∅ →
    getServerStatus w2 = false ∧ ∃ e, outcomes w2 !! c = Some (StartRejected e).

(** The deadline of a start runs from its own launch: once a call has
    launched, a probe of its poll that fails more than [_maxStartupTime]
    after that launch rejects the call for the timeout, whatever else has
    been called meanwhile. *)
Definition deadline_from_own_launch : Prop :=
  ∀ (evs1 evs2 : list event) (w0 w1 w2 w3 : world) (c : nat)
    (r : Probe.remote),
    run boot evs1 = Some w0 →
    step w0 (CommandExistsDone c true) = Some w1 →
    mid_poll w1 c = true →
    run w1 evs2 = Some w2 →
    Probe.checkIfServerRunning (poll_port w2 c) r = Fulfilled false →
    step w2 (ProbeDone c r) = Some w3 →
    _maxStartupTime < now w2 - now w0 →
    outcomes w3 !! c = Some (StartRejected StartupTimeout).

(** No interleaving ever has two live terminals. *)
Definition at_most_one_live_terminal : Prop :=
  ∀ (evs : list event) (w : world),
    run boot evs = Some w → (size (live w) ≤ 1)%nat.


(** After [stopServer] the cached state is never running. *)
Definition stop_always_idles : Prop :=
  ∀ (evs : list event) (w : world) (r : Probe.remote),
    run boot evs = Some w →
    ∃ w', solo_stop w r = Some w'
          ∧ getServerStatus w' = false
          ∧ _terminal (mgr w') = None.

End ServerManager.

(** ** Project detection, [isMotiaProject] *)

Module ProjectDetector.

(** What [JSON.parse] returns. *)
#[local] Unset Elimination Schemes.
Inductive json : Type :=
| JNull
| JBool (b : bool)
| JNumber (n : Z)
| JString (s : string)
| JArray (items : list json)
| JObject (members : list (string * json)).
#[local] Set Elimination Schemes.

(** A snapshot of the file system: what is at each path. [parsed] is what
    [JSON.parse] makes of the file's text, [None] when it throws. *)
Inductive node : Type :=
| Directory
| File (parsed : option json).

Definition filesystem : Type := string → option node.

Inductive exn : Type := SyntaxError | TypeError | EISDIR | ENOENT.

(** A JavaScript computation ends normally or throws. *)
Inductive completion (A : Type) : Type :=
| Normal (v : A)
| Throw (e : exn).
Arguments Normal {A} v.
Arguments Throw {A} e.

#[local] Instance completion_bind : MBind completion := λ A B k m,
  match m with
  | Normal v => k v
  | Throw e => Throw e
  end.

(** [try { body } catch (error) { handler }] *)
Definition try_catch {A} (body : completion A) (handler : exn → completion A)
    : completion A :=
  match body with
  | Normal v => Normal v
  | Throw e => handler e
  end.

Definition path_join (dir name : string) : string := dir +:+ "/" +:+ name.

Definition existsSync (fs : filesystem) (p : string) : bool :=
  match fs p with
  | Some _ => true
  | None => false
  end.

Definition statSync (fs : filesystem) (p : string) : completion node :=
  match fs p with
  | Some n => Normal n
  | None => Throw ENOENT
  end.

Definition isDirectory (n : node) : bool :=
  match n with
  | Directory => true
  | File _ => false
  end.

(** [JSON.parse(fs.readFileSync(p, 'utf8'))] *)
Definition readAndParse (fs : filesystem) (p : string) : completion json :=
  match fs p with
  | None => Throw ENOENT
  | Some Directory => Throw EISDIR
  | Some (File None) => Throw SyntaxError
  | Some (File (Some v)) => Normal v
  end.

(** The last member named [k] wins, as in [JSON.parse]. *)
Fixpoint member (k : string) (members : list (string * json)) : option json :=
  match members with
  | [] => None
  | (k', v) :: rest =>
      match member k rest with
      | Some v' => Some v'
      | None => if String.eqb k k' then Some v else None
      end
  end.

(** [v.dependencies] and [v.devDependencies]: [None] is [undefined]. *)
Definition get (v : json) (k : string) : completion (option json) :=
  match v with
  | JNull => Throw TypeError
  | JObject members => Normal (member k members)
  | _ => Normal None
  end.

Definition indices (n : nat) : list string := pretty <$> seq 0 n.

(** The keys that [{...v}] copies. *)
Definition spread (v : option json) : list string :=
  match v with
  | Some (JObject members) => members.*1
  | Some (JArray items) => indices (length items)
  | Some (JString s) => indices (String.length s)
  | _ => []
  end.

Definition isMotiaDependency (dep : string) : bool :=
  startsWith dep "@motiadev/" || String.eqb dep "motia".

(** The body of the [try], lines 28-37: [hasMotiaDependency]. *)
Definition hasMotiaDependency (fs : filesystem) (packageJsonPath : string)
    : completion bool :=
  packageJson ← readAndParse fs packageJsonPath;
  deps ← get packageJson "dependencies";
  devDeps ← get packageJson "devDependencies";
  let dependencies := spread deps ++ spread devDeps in
  Normal (existsb isMotiaDependency dependencies).

(** One iteration of the loop: [true] is [return true]. *)
Definition checkFolder (fs : filesystem) (fsPath : string) : completion bool :=
  let stepsPath := path_join fsPath "steps" in
  hasSteps ← (if existsSync fs stepsPath
              then st ← statSync fs stepsPath; Normal (isDirectory st)
              else Normal false);
  if (hasSteps : bool) then Normal true
  else
    let packageJsonPath := path_join fsPath "package.json" in
    if existsSync fs packageJsonPath
    then try_catch (hasMotiaDependency fs packageJsonPath)
                   (fun error => Normal false)
    else Normal false.

Fixpoint checkFolders (fs : filesystem) (folders : list string) : completion bool :=
  match folders with
  | [] => Normal false
  | folder :: rest =>
      found ← checkFolder fs folder;
      if (found : bool) then Normal true else checkFolders fs rest
  end.

(** [workspaceFolders] is [None] when [undefined]. *)
Definition isMotiaProject (fs : filesystem) (workspaceFolders : option (list string))
    : completion bool :=
  match workspaceFolders with
  | None => Normal false
  | Some folders =>
      if (length folders =? 0)%nat then Normal false
      else checkFolders fs folders
  end.

(** What a folder has to show to count, read off the file system. *)
Definition detects (fs : filesystem) (fsPath : string) : bool :=
  match fs (path_join fsPath "steps") with
  | Some Directory => true
  | _ =>
      match fs (path_join fsPath "package.json") with
      | Some (File (Some (JObject members))) =>
          existsb isMotiaDependency
            (spread (member "dependencies" members)
             ++ spread (member "devDependencies" members))
      | _ => false
      end
  end.

(** A workspace whose first folder has a manifest that does not parse, and
    whose second folder depends on a Motia package. *)
Definition sample_workspace : filesystem := λ p,
  if String.eqb p "/work/broken/package.json" then Some (File None)
  else if String.eqb p "/work/app/package.json" then
    Some (File (Some (JObject
      [("name", JString "app");
       ("devDependencies", JObject [("@motiadev/core", JString "^0.1.0")])])))
  else None.

End ProjectDetector.

(** ** Whole calls and what the log shows *)

Module Scenarios.
Import ServerManager.




(** The time a poll takes over the probes [rs], each probe issued
    [checkInterval] after the launch or after the probe before it. *)
Definition elapsed (rs : list Probe.remote) : Z :=
  foldr (λ r t, checkInterval + Probe.duration r + t) 0 rs.

(** The terminals a log shows created, and those it shows disposed. *)
Fixpoint created (l : list effect) : list terminal :=
  match l with
  | [] => []
  | CreateTerminal t :: l' => t :: created l'
  | _ :: l' => created l'
  end.

Fixpoint disposed (l : list effect) : list terminal :=
  match l with
  | [] => []
  | DisposeTerminal t :: l' => t :: disposed l'
  | _ :: l' => disposed l'
  end.

(** The delays of the timers set to open the workbench. *)
Fixpoint workbench_timers (l : list effect) : list Z :=
  match l with
  | [] => []
  | OpenWorkbenchAfter d :: l' => d :: workbench_timers l'
  | _ :: l' => workbench_timers l'
  end.

(** A run of white space, of any of the kinds [trim] removes. *)
Definition blank (s : string) : bool :=
  match strip false (String.list_ascii_of_string s) with
  | [] => true
  | _ => false
  end.

(** A settled call has nothing pending. *)
Definition quiet (w : world) : Prop :=
  (∀ c t, tasks w !! c = Some t → (c < next_call w)%nat)
  ∧ (∀ c o, outcomes w !! c = Some o →
            (c < next_call w)%nat ∧ tasks w !! c = None).

(** The log accounts for the terminals. *)
Definition accounted (w : world) : Prop :=
  (∀ t, t ∈ created (log w) → (t < next_terminal w)%nat)
  ∧ NoDup (created (log w))
  ∧ NoDup (disposed (log w))
  ∧ (∀ t, t ∈ disposed (log w) → t ∈ created (log w))
  ∧ (∀ t, t ∈ live w ↔ t ∈ created (log w) ∧ t ∉ disposed (log w))
  ∧ (∀ t, _terminal (mgr w) = Some t → t ∈ live w).

End Scenarios.

(** ** Names of dependencies *)

(** A decimal digit. *)
Definition digit (a : Ascii.ascii) : bool :=
  let n := Ascii.nat_of_ascii a in (48 <=? n)%nat && (n <=? 57)%nat.

(** The name is [motia] or lies in the [@motiadev] scope. *)
Definition motia_name (dep : string) : Prop :=
  dep = "motia" ∨ ∃ rest, dep = "@motiadev/" +:+ rest.

(** ** The workbench panel, [WorkbenchPanel] *)

Module WorkbenchPanel.
Import ServerManager.

Definition panel : Type := nat.

(** The three subscriptions the constructor pushes on [_disposables]. *)
Inductive listener : Type :=
| OnDidDispose
| OnDidChangeViewState
| OnDidReceiveMessage.

(** [currentPanel] is the static field; [instances] holds, for each webview
    panel that is open, the [_disposables] of the object wrapping it;
    [released] lists the subscriptions disposed so far, newest first. *)
Record view : Type := View {
  currentPanel : option panel;
  instances : gmap panel (list listener);
  next_panel : panel;
  released : list (panel * listener);
}.

Definition closed : view :=
  {| currentPanel := None; instances := ∅; next_panel := 0%nat; released := [] |}.

(** [createOrShow], lines 21-42: the part before the first [await]. The
    result names the panel that [_update] is then called on. *)
Definition createOrShow (v : view) : view * panel :=
  match currentPanel v with
  | Some p => (v, p)
  | None =>
      let p := next_panel v in
      (View (Some p)
            (<[p:=[OnDidDispose; OnDidChangeViewState; OnDidReceiveMessage]]>
               (instances v))
            (S p) (released v), p)
  end.

(** [Array.prototype.pop] *)
Definition pop {A} (l : list A) : option A * list A := (last l, removelast l).

(** The loop of [dispose], lines 122-127, run for at most [n] rounds:
    what is left on [_disposables], and the log of what was disposed. *)
Fixpoint drain {A} (n : nat) (ds : list A) (out : list A) : list A * list A :=
  match n with
  | O => (ds, out)
  | S n' =>
      if (length ds =? 0)%nat then (ds, out)
      else match pop ds with
           | (Some x, ds') => drain n' ds' (x :: out)
           | (None, ds') => drain n' ds' out
           end
  end.

(** [dispose] of the object wrapping panel [p], lines 116-128. *)
Definition dispose (p : panel) (ds : list listener) (v : view) : view :=
  let '(_, out) := drain (length ds) ds [] in
  View None (delete p (instances v)) (next_panel v)
       (((λ d, (p, d)) <$> out) ++ released v).

Inductive event : Type :=
| CreateOrShow
| Closed (p : panel).   (* the panel is closed, and [onDidDispose] fires *)

Definition step (v : view) (ev : event) : option view :=
  match ev with
  | CreateOrShow => Some (createOrShow v).1
  | Closed p =>
      match instances v !! p with
      | Some ds => Some (dispose p ds v)
      | None => None
      end
  end.

Fixpoint run (v : view) (evs : list event) : option view :=
  match evs with
  | [] => Some v
  | ev :: evs' => v' ← step v ev; run v' evs'
  end.

(** The panels that are open are the one [currentPanel] names. *)
Definition single (v : view) : Prop :=
  match currentPanel v with
  | Some p => dom (instances v) = {[p]}
  | None => instances v = ∅
  end.

(** The two documents [_getHtmlForWebview] returns: the notice with the
    start button, and the frame on [http://localhost:<port>]. *)
Inductive page : Type :=
| NotRunningPage
| FramePage (port : Z).

(** [_getHtmlForWebview], lines 142-356, once [isServerRunning] has
    answered; [port] is the setting read on line 145. *)
Definition _getHtmlForWebview (port : Z) (isServerRunning : bool) : page :=
  if negb isServerRunning then NotRunningPage else FramePage port.

(** [_update], lines 133-136, with nothing else in between: the world after
    the probe, and how the promise of [_update] ends.  When it is fulfilled,
    the document is the one given to the webview; when [isServerRunning]
    rejects, the [await] throws and the webview keeps what it had. *)
Definition _update (w : world) (r : Probe.remote)
    : option (world * promise page error) :=
  let port := serverPort (config w) in
  w' ← ServerManager.run w [CallIsServerRunning; wait (Probe.duration r);
                            ProbeDone (next_call w) r];
  match outcomes w' !! next_call w with
  | Some (IsRunningResolved b) => Some (w', Fulfilled (_getHtmlForWebview port b))
  | Some (IsRunningRejected e) => Some (w', RejectedWith e)
  | _ => None
  end.

End WorkbenchPanel.

(** ** Activation, [activate] in [src/extension.ts] *)

Module Extension.
Import ProjectDetector.

(** The calls [activate] makes on the editor and on [ServerManager]. *)
Inductive call : Type :=
| CreateStatusBarItem                (* line 24 *)
| ShowStatusBarItem                  (* line 28 *)
| RegisterCommand (name : string)    (* lines 33, 83 and 106 *)
| GetConfiguration                   (* lines 116-117 *)
| StartServer.                       (* line 120 *)

Inductive effect : Type :=
| ConsoleLog (text : string)
| ConsoleError (text : string)
| Called (c : call).

(** What is outside [activate]: whether a call on the editor throws (a
    command identifier that is taken makes [registerCommand] throw), the
    [autoStartServer] setting, and how the promise of [startServer] ends. *)
Record host : Type := Host {
  throws : call → bool;
  autoStartServer : bool;
  started : promise bool error;
}.

Inductive thrown : Type :=
| DetectionFailed (e : exn)
| CallFailed (c : call)
| StartFailed (e : error).

(** A stretch of an [async] function: what it has done, and whether it has
    ended normally, has thrown, or waits for a promise that never settles. *)
Definition act (A : Type) : Type := list effect * promise A thrown.

Definition ret {A} (v : A) : act A := ([], Fulfilled v).

Definition bind {A B} (m : act A) (k : A → act B) : act B :=
  match m with
  | (done, Fulfilled v) => let '(more, r) := k v in (done ++ more, r)
  | (done, RejectedWith e) => (done, RejectedWith e)
  | (done, Pending) => (done, Pending)
  end.

Definition seq {B} (m : act unit) (k : act B) : act B := bind m (λ _, k).

(** [try { body } catch (error) { handler }] *)
Definition try_catch {A} (body : act A) (handler : thrown → act A) : act A :=
  match body with
  | (done, RejectedWith e) => let '(more, r) := handler e in (done ++ more, r)
  | _ => body
  end.

Definition console (e : effect) : act unit := ([e], Fulfilled tt).

(** A call on the editor. *)
Definition perform (h : host) (c : call) : act unit :=
  if throws h c then ([], RejectedWith (CallFailed c))
  else ([Called c], Fulfilled tt).

(** [await isMotiaProject()] *)
Definition detect (fs : filesystem) (workspaceFolders : option (list string))
    : act bool :=
  match isMotiaProject fs workspaceFolders with
  | Normal v => ([], Fulfilled v)
  | Throw e => ([], RejectedWith (DetectionFailed e))
  end.

(** [await ServerManager.startServer(context.extensionUri)] *)
Definition startServer (h : host) : act bool :=
  ([Called StartServer],
   match started h with
   | Fulfilled v => Fulfilled v
   | RejectedWith e => RejectedWith (StartFailed e)
   | Pending => Pending
   end).

(** The calls of lines 24-117, in order. *)
Definition contributions : list call :=
  [CreateStatusBarItem; ShowStatusBarItem;
   RegisterCommand "motia.openWorkbench"; RegisterCommand "motia.startServer";
   RegisterCommand "motia.stopServer"; GetConfiguration].

(** [activate], lines 13-132. *)
Definition activate (h : host) (fs : filesystem)
    (workspaceFolders : option (list string)) : act unit :=
  seq (console (ConsoleLog "Activating Motia Workbench extension"))
  (try_catch
     (bind (detect fs workspaceFolders) (λ isMotia : bool,
        if isMotia then
          seq (console (ConsoleLog "Motia project detected"))
          (seq (perform h CreateStatusBarItem)
          (seq (perform h ShowStatusBarItem)
          (seq (perform h (RegisterCommand "motia.openWorkbench"))
          (seq (perform h (RegisterCommand "motia.startServer"))
          (seq (perform h (RegisterCommand "motia.stopServer"))
          (seq (perform h GetConfiguration)
          (if autoStartServer h then
             try_catch
               (bind (startServer h) (λ _, ret tt))
               (λ error,
                  console (ConsoleError "Error auto-starting Motia server:"))
           else ret tt)))))))
        else console (ConsoleLog "No Motia project detected")))
     (λ error, console (ConsoleError "Error activating Motia extension:"))).

(** The calls among the effects. *)
Fixpoint calls (l : list effect) : list call :=
  match l with
  | [] => []
  | Called c :: l' => c :: calls l'
  | _ :: l' => calls l'
  end.

End Extension.

(** * Facts *)

(** ** The probe *)

Module ProbeFacts.

(** Once made, the HTTP request fulfils the promise, with [true] exactly for
    a [200] that arrives before the idle timer expires. *)
Lemma request_fulfilled {E} (r : Probe.remote) :
  Probe.request (E:=E) r =
  Fulfilled match r with
            | Probe.Responds after statusCode =>
                (Z.of_N after <? Probe.timeout) && (statusCode =? 200)
            | _ => false
            end.
Proof.
  unfold Probe.request, Probe.emitted.
  destruct r as [after|after statusCode|]; simpl; try reflexivity.
  - destruct (Z.of_N after <? Probe.timeout); reflexivity.
  - destruct (Z.of_N after <? Probe.timeout); simpl; [|reflexivity].
    destruct (statusCode =? 200); reflexivity.
Qed.

Lemma checkIfServerRunning_fulfilled (port : Z) (r : Probe.remote) :
  Probe.valid_port port = true →
  Probe.checkIfServerRunning port r =
  Fulfilled match r with
            | Probe.Responds after statusCode =>
                (Z.of_N after <? Probe.timeout) && (statusCode =? 200)
            | _ => false
            end.
Proof.
  intros Hp. unfold Probe.checkIfServerRunning. rewrite Hp.
  apply request_fulfilled.
Qed.

Lemma checkIfServerRunning_rejected (port : Z) (r : Probe.remote) :
  Probe.valid_port port = false →
  Probe.checkIfServerRunning port r = RejectedWith (SocketBadPort port).
Proof. intros Hp. unfold Probe.checkIfServerRunning. by rewrite Hp. Qed.

Lemma duration_bounds (r : Probe.remote) :
  0 <= Probe.duration r <= Probe.timeout.
Proof. unfold Probe.timeout. destruct r; simpl; unfold Probe.timeout; lia. Qed.

Lemma legacy_request_fulfilled {E} (r : LegacyProbe.peer) :
  LegacyProbe.request (E:=E) r =
  Fulfilled match r with
            | LegacyProbe.Accepts after => Z.of_N after <? LegacyProbe.timeout
            | _ => false
            end.
Proof.
  unfold LegacyProbe.request, LegacyProbe.emitted.
  destruct r as [after|after|]; simpl; try reflexivity;
    destruct (Z.of_N after <? LegacyProbe.timeout); reflexivity.
Qed.

Lemma legacy_duration_bounds (r : LegacyProbe.peer) :
  0 <= LegacyProbe.duration r <= LegacyProbe.timeout.
Proof. destruct r; simpl; unfold LegacyProbe.timeout; lia. Qed.

End ProbeFacts.

(** ** The coordinator *)

Module ServerManagerFacts.
Import ServerManager.

Lemma request_succeeds (r : Probe.remote) :
  Probe.request (E:=error) r = Fulfilled (succeeds r).
Proof.
  unfold succeeds. rewrite ProbeFacts.request_fulfilled.
  by destruct r as [?|after statusCode|];
    try destruct ((Z.of_N after <? Probe.timeout) && (statusCode =? 200)).
Qed.

Lemma succeeds_spec (p : Z) (r : Probe.remote) :
  Probe.valid_port p = true →
  Probe.checkIfServerRunning p r = Fulfilled (succeeds r).
Proof.
  intros Hp. unfold Probe.checkIfServerRunning. rewrite Hp.
  apply request_succeeds.
Qed.


(** A probe is rejected only by Node, for a port that is none. *)
Lemma probe_rejected (p : Z) (r : Probe.remote) (e : error) :
  Probe.checkIfServerRunning p r = RejectedWith e ↔
  Probe.valid_port p = false ∧ e = SocketBadPort p.
Proof.
  unfold Probe.checkIfServerRunning.
  destruct (Probe.valid_port p); rewrite ?request_succeeds.
  - split; [done | by intros [? _]].
  - split; [by intros [= <-] | by intros [_ ->]].
Qed.

Lemma probe_not_pending (p : Z) (r : Probe.remote) :
  Probe.checkIfServerRunning p r ≠ Pending.
Proof.
  unfold Probe.checkIfServerRunning.
  destruct (Probe.valid_port p); rewrite ?request_succeeds; done.
Qed.

(** Computes the fields of an updated world.  Updates and projections are
    reduced together: unfolding the updates alone copies the world once per
    field at every level. *)
Ltac fields :=
  cbv beta iota zeta delta
    [getServerStatus emit suspend settle called set_mgr set_config set_now
     createTerminal dispose set_terminal set_isRunning set_serverPort
     set_serverStartTime mgr config now live next_terminal log next_call
     tasks outcomes _terminal _isRunning _serverPort _serverStartTime
     serverPort nodejsPath].

Tactic Notation "fields" "in" hyp(H) :=
  cbv beta iota zeta delta
    [getServerStatus emit suspend settle called set_mgr set_config set_now
     createTerminal dispose set_terminal set_isRunning set_serverPort
     set_serverStartTime mgr config now live next_terminal log next_call
     tasks outcomes _terminal _isRunning _serverPort _serverStartTime
     serverPort nodejsPath] in H.

Lemma run_cons (w w' : world) (ev : event) (evs : list event) :
  step w ev = Some w' → run w (ev :: evs) = run w' evs.
Proof. intros H. simpl. by rewrite H. Qed.

(** Facts about the end of a concrete run are read off by evaluation. *)
Lemma run_observe (P : world → Prop) (w : world) (evs : list event) :
  from_option P False (run w evs) → ∃ w', run w evs = Some w' ∧ P w'.
Proof. destruct (run w evs) as [w'|]; simpl; [eauto | done]. Qed.

Lemma step_wait (w : world) (ms : Z) :
  step w (wait ms) = Some (set_now (now w + Z.max 0 ms) w).
Proof. unfold wait. simpl. do 2 f_equal. lia. Qed.

(** *** What each kind of task does when its probe settles *)



Lemma step_poll_probe (w : world) (c : nat) (uri : bool)
    (p since : Z) (r : Probe.remote) :
  tasks w !! c = Some (PollProbing uri p since) →
  since + Probe.duration r <= now w →
  Probe.valid_port p = true →
  step w (ProbeDone c r) = Some (checkServer c uri (Fulfilled (succeeds r)) w).
Proof.
  intros Ht Hs Hp. simpl. rewrite Ht. unfold settled_by.
  rewrite (proj2 (Z.leb_le _ _) Hs). by rewrite succeeds_spec.
Qed.

Lemma step_poll_probe_rejected (w : world) (c : nat) (uri : bool)
    (p since : Z) (r : Probe.remote) :
  tasks w !! c = Some (PollProbing uri p since) →
  since + Probe.duration r <= now w →
  Probe.valid_port p = false →
  step w (ProbeDone c r) = Some (checkServer c uri (RejectedWith (SocketBadPort p)) w).
Proof.
  intros Ht Hs Hp. simpl. rewrite Ht. unfold settled_by.
  rewrite (proj2 (Z.leb_le _ _) Hs).
  by rewrite ProbeFacts.checkIfServerRunning_rejected.
Qed.

Lemma step_stop_probe (w : world) (c : nat) (p since : Z) (r : Probe.remote) :
  tasks w !! c = Some (StopProbing p since) →
  since + Probe.duration r <= now w →
  Probe.valid_port p = true →
  step w (ProbeDone c r) = Some (stop_probed c (succeeds r) w).
Proof.
  intros Ht Hs Hp. simpl. rewrite Ht. unfold settled_by.
  rewrite (proj2 (Z.leb_le _ _) Hs). by rewrite succeeds_spec.
Qed.

Lemma step_stop_probe_rejected (w : world) (c : nat) (p since : Z) (r : Probe.remote) :
  tasks w !! c = Some (StopProbing p since) →
  since + Probe.duration r <= now w →
  Probe.valid_port p = false →
  step w (ProbeDone c r) = Some (settle c StopHung w).
Proof.
  intros Ht Hs Hp. simpl. rewrite Ht. unfold settled_by.
  rewrite (proj2 (Z.leb_le _ _) Hs).
  by rewrite ProbeFacts.checkIfServerRunning_rejected.
Qed.

Lemma step_isRunning_probe (w : world) (c : nat) (p since : Z) (r : Probe.remote) :
  tasks w !! c = Some (IsRunningProbing p since) →
  since + Probe.duration r <= now w →
  Probe.valid_port p = true →
  step w (ProbeDone c r) = Some (settle c (IsRunningResolved (succeeds r)) w).
Proof.
  intros Ht Hs Hp. simpl. rewrite Ht. unfold settled_by.
  rewrite (proj2 (Z.leb_le _ _) Hs). by rewrite succeeds_spec.
Qed.

Lemma step_isRunning_probe_rejected (w : world) (c : nat) (p since : Z) (r : Probe.remote) :
  tasks w !! c = Some (IsRunningProbing p since) →
  since + Probe.duration r <= now w →
  Probe.valid_port p = false →
  step w (ProbeDone c r) = Some (settle c (IsRunningRejected (SocketBadPort p)) w).
Proof.
  intros Ht Hs Hp. simpl. rewrite Ht. unfold settled_by.
  rewrite (proj2 (Z.leb_le _ _) Hs).
  by rewrite ProbeFacts.checkIfServerRunning_rejected.
Qed.

Lemma step_timer (w : world) (c : nat) (uri : bool) (due : Z) :
  tasks w !! c = Some (PollWaiting uri due) →
  due <= now w →
  step w (TimerFired c) = Some (probe_then c (PollProbing uri) w).
Proof.
  intros Ht Hd. simpl. rewrite Ht. by rewrite (proj2 (Z.leb_le _ _) Hd).
Qed.

(** *** One whole [stopServer] *)

Lemma stopServer_task (c : nat) (w : world) :
  tasks (stopServer c w) !! c = Some (StopProbing (_serverPort (mgr w)) (now w)).
Proof.
  unfold stopServer, probe_then.
  destruct (_terminal (mgr w)); simpl; apply lookup_insert_eq.
Qed.

Lemma stopServer_now (c : nat) (w : world) : now (stopServer c w) = now w.
Proof. unfold stopServer. by destruct (_terminal (mgr w)). Qed.

Lemma solo_stop_run (w : world) (r : Probe.remote) :
  let w1 := stopServer (next_call w) (called w) in
  let w2 := set_now (now w1 + Z.max 0 (Probe.duration r)) w1 in
  solo_stop w r =
  Some (if Probe.valid_port (_serverPort (mgr w))
        then stop_probed (next_call w) (succeeds r) w2
        else settle (next_call w) StopHung w2).
Proof.
  intros w1 w2. unfold solo_stop.
  erewrite run_cons by reflexivity.
  erewrite run_cons by apply step_wait.
  pose proof (ProbeFacts.duration_bounds r) as Hd.
  assert (Ht : tasks w2 !! next_call w
               = Some (StopProbing (_serverPort (mgr w)) (now w))).
  { subst w2 w1. cbn [tasks set_now]. apply (stopServer_task _ (called w)). }
  assert (Hs : now w + Probe.duration r <= now w2).
  { subst w2 w1. cbn [now set_now]. rewrite stopServer_now. simpl. lia. }
  destruct (Probe.valid_port (_serverPort (mgr w))) eqn:Hp.
  - erewrite run_cons; [reflexivity|]. by eapply step_stop_probe.
  - erewrite run_cons; [reflexivity|]. by eapply step_stop_probe_rejected.
Qed.

Lemma solo_stop_ends (w : world) (r : Probe.remote) :
  ∃ w', solo_stop w r = Some w'
        ∧ outcomes w' !! next_call w =
            Some (if Probe.valid_port (_serverPort (mgr w))
                  then StopResolved else StopHung)
        ∧ _terminal (mgr w') = None
        ∧ getServerStatus w' =
            match _terminal (mgr w) with
            | Some _ => false
            | None => getServerStatus w
            end
        ∧ live w' =
            match _terminal (mgr w) with
            | Some t => live w ∖ {[t]}
            | None => live w
            end.
Proof.
  rewrite solo_stop_run. eexists. split; [reflexivity|].
  destruct (Probe.valid_port (_serverPort (mgr w)));
    destruct w as [[[t|] ? ? ?] ? ? ? ? ? ? ? ?];
    unfold stop_probed, stopServer, probe_then; destruct (succeeds r);
    fields; split_and!; first [apply lookup_insert_eq | reflexivity].
Qed.

(** C6 (as amended): [stopServer] always ends with no terminal owned, but it
    clears the cached running flag only when it owned a terminal; with none
    owned the flag is left as it was, so after an adoption it stays [true].
    The promise is resolved once the probe has answered; a probe that Node
    rejects, for a cached port that is none, leaves it pending. *)
Theorem stop_clears_flag_only_with_terminal (w : world) (r : Probe.remote) :
  ∃ w', solo_stop w r = Some w'
        ∧ outcomes w' !! next_call w =
            Some (if Probe.valid_port (_serverPort (mgr w))
                  then StopResolved else StopHung)
        ∧ _terminal (mgr w') = None
        ∧ getServerStatus w' =
            match _terminal (mgr w) with
            | Some _ => false
            | None => getServerStatus w
            end
        ∧ live w' =
            match _terminal (mgr w) with
            | Some t => live w ∖ {[t]}
            | None => live w
            end.
Proof. apply solo_stop_ends. Qed.

(** C7: with no terminal owned, [stopServer] reports that no server is
    running, probes the cached port, and changes neither the static fields
    nor the terminals; a second call right after does the same.  When the
    cached port is a port, both calls resolve.  When it is not, as after a
    [startServer] that read 65536 from the settings, the probe is rejected
    inside the executor, which has no handler: [resolve()] on line 183 is
    never reached and neither promise ever settles. *)
Theorem stop_without_terminal_hangs_on_bad_port (w : world)
    (r1 r2 : Probe.remote) :
  _terminal (mgr w) = None →
  let p := _serverPort (mgr w) in
  ∃ w1 w2,
    solo_stop w r1 = Some w1
    ∧ mgr w1 = mgr w ∧ live w1 = live w
    ∧ solo_stop w1 r2 = Some w2
    ∧ mgr w2 = mgr w ∧ live w2 = live w
    ∧ if Probe.valid_port p
      then outcomes w1 !! next_call w = Some StopResolved
           ∧ log w1 = idle_stop_log p r1 ++ log w
           ∧ outcomes w2 !! next_call w1 = Some StopResolved
           ∧ log w2 = idle_stop_log p r2 ++ log w1
      else outcomes w1 !! next_call w = Some StopHung
           ∧ log w1 = [HttpGet p; ShowInformationMessage NoServerRunning] ++ log w
           ∧ outcomes w2 !! next_call w1 = Some StopHung
           ∧ log w2 = [HttpGet p; ShowInformationMessage NoServerRunning] ++ log w1.
Proof.
  intros Hnone p.
  assert (Hone : ∀ (v : world) (r : Probe.remote), _terminal (mgr v) = None →
    ∃ v', solo_stop v r = Some v'
          ∧ mgr v' = mgr v ∧ live v' = live v
          ∧ if Probe.valid_port (_serverPort (mgr v))
            then outcomes v' !! next_call v = Some StopResolved
                 ∧ log v' = idle_stop_log (_serverPort (mgr v)) r ++ log v
            else outcomes v' !! next_call v = Some StopHung
                 ∧ log v' = [HttpGet (_serverPort (mgr v));
                             ShowInformationMessage NoServerRunning] ++ log v).
  { intros v r Hv. rewrite solo_stop_run. eexists. split; [reflexivity|].
    destruct (Probe.valid_port (_serverPort (mgr v)));
      destruct v as [[? ? ? ?] ? ? ? ? ? ? ? ?]; simpl in Hv; subst;
      unfold stop_probed, stopServer, probe_then, idle_stop_log;
      destruct (succeeds r); fields; split_and!;
      first [apply lookup_insert_eq | reflexivity]. }
  destruct (Hone w r1 Hnone) as (w1 & Hrun1 & Hmgr1 & Hlive1 & H1).
  assert (Hnone1 : _terminal (mgr w1) = None) by by rewrite Hmgr1.
  destruct (Hone w1 r2 Hnone1) as (w2 & Hrun2 & Hmgr2 & Hlive2 & H2).
  exists w1, w2. rewrite Hmgr1 in Hmgr2, H2. rewrite Hlive1 in Hlive2.
  subst p. destruct (Probe.valid_port (_serverPort (mgr w)));
    destruct H1, H2; by split_and!.
Qed.

Lemma stop_without_terminal_hangs_on_bad_port_witness :
  ∃ w1 w2,
    solo_stop bad_port_start Probe.Silent = Some w1
    ∧ outcomes w1 !! 1%nat = Some StopHung
    ∧ mgr w1 = mgr bad_port_start
    ∧ solo_stop w1 (Probe.Refuses 0) = Some w2
    ∧ outcomes w2 !! 2%nat = Some StopHung
    ∧ outcomes w2 !! 0%nat = Some StartHung.
Proof.
  destruct (stop_without_terminal_hangs_on_bad_port bad_port_start
              Probe.Silent (Probe.Refuses 0) eq_refl)
    as (w1 & w2 & Hrun1 & Hmgr1 & _ & Hrun2 & _ & _ & Hout1 & _ & Hout2 & _).
  exists w1, w2. split_and!; try done.
  - vm_compute in Hrun1. injection Hrun1 as <-. exact Hout2.
  - vm_compute in Hrun1. injection Hrun1 as <-.
    vm_compute in Hrun2. by injection Hrun2 as <-.
Defined.

(** *** The cached port *)

Ltac code :=
  unfold startServer, start_validated, start_probed, start_command_checked,
    checkServer, stopServer, stop_probed, isServerRunning, launch,
    _pollServerStatus, probe_then in *.

(** Splits [H : step w ev = Some w'] into the paths through the code. *)
Ltac step_paths H :=
  match type of H with
  | step ?w ?ev = _ =>
      destruct ev; cbn [step] in H; repeat case_match; simplify_eq
  end.

Lemma step_port (w w' : world) (ev : event) :
  step w ev = Some w' →
  _serverPort (mgr w') = captured_port (config w) (_serverPort (mgr w)) [ev]
  ∧ config w' = match ev with
                | ChangeSettings cfg => cfg
                | _ => config w
                end.
Proof.
  intros H. destruct w as [[? ? ? ?] ? ? ? ? ? ? ? ?].
  step_paths H; code; repeat case_match; fields; done.
Qed.

Lemma run_port (evs : list event) (w w' : world) :
  run w evs = Some w' →
  _serverPort (mgr w') = captured_port (config w) (_serverPort (mgr w)) evs.
Proof.
  revert w. induction evs as [|ev evs IH]; intros w H; simpl in H.
  - by simplify_eq.
  - destruct (step w ev) as [w1|] eqn:Hstep; [|done]. simpl in H.
    apply step_port in Hstep as [Hp Hc]. rewrite (IH _ H), Hp, Hc.
    by destruct ev.
Qed.

Lemma captured_port_settings (cfg cfg' : configuration) (p : Z) (evs : list event) :
  captured_port cfg p (evs ++ [ChangeSettings cfg']) = captured_port cfg p evs.
Proof.
  revert cfg p. induction evs as [|ev evs IH]; intros cfg p; [done|].
  destruct ev; simpl; apply IH.
Qed.

(** C9: [isServerRunning] and [stopServer] probe the cached port, which is the
    value the latest [startServer] read from the settings (3000 before any
    start); a later change of the setting does not move it. *)
Theorem probes_use_captured_port (evs : list event) (w : world) :
  run boot evs = Some w →
  let p := captured_port defaults 3000 evs in
  _serverPort (mgr w) = p
  ∧ (∃ w', step w CallIsServerRunning = Some w'
           ∧ log w' = HttpGet p :: log w
           ∧ tasks w' !! next_call w = Some (IsRunningProbing p (now w)))
  ∧ (∃ w', step w CallStop = Some w'
           ∧ head (log w') = Some (HttpGet p)
           ∧ tasks w' !! next_call w = Some (StopProbing p (now w)))
  ∧ (∀ cfg w', step w (ChangeSettings cfg) = Some w' →
               _serverPort (mgr w') = p
               ∧ captured_port defaults 3000 (evs ++ [ChangeSettings cfg]) = p).
Proof.
  intros Hrun p. apply run_port in Hrun. change (_serverPort (mgr w) = p) in Hrun.
  split_and!; [done|..].
  - eexists. split; [reflexivity|]. rewrite <- Hrun.
    destruct w as [[? ? ? ?] ? ? ? ? ? ? ? ?]. code. fields.
    split; [reflexivity | apply lookup_insert_eq].
  - eexists. split; [reflexivity|]. rewrite <- Hrun.
    destruct w as [[[t|] ? ? ?] ? ? ? ? ? ? ? ?]; code; fields;
      (split; [reflexivity | apply lookup_insert_eq]).
  - intros cfg w' Hstep. simpl in Hstep. simplify_eq. split.
    + by destruct w as [[? ? ? ?] ? ? ? ? ? ? ? ?].
    + apply captured_port_settings.
Qed.

Lemma probes_use_captured_port_witness :
  let evs := [ChangeSettings (Configuration 4000 ""); CallStart false;
              ChangeSettings (Configuration 5000 "")] in
  ∃ w, run boot evs = Some w
       ∧ captured_port defaults 3000 evs = 4000
       ∧ serverPort (config w) = 5000
       ∧ _serverPort (mgr w) = 4000.
Proof.
  intros evs. eexists. split; [reflexivity|]. split; [reflexivity|].
  split; [reflexivity|].
  exact (proj1 (probes_use_captured_port evs _ eq_refl)).
Defined.

(** C8: a probe of a port in 0..65535 always fulfils its promise with a
    boolean, in the HTTP revision and in the socket revision; the answer
    comes within the probe's own timeout, and it is [false] for a peer that
    refuses, stays silent, or answers too late.  For any other port number,
    such as 65536, the promise is rejected: Node throws while the executor
    is still running, before any of the handlers that answer [false] can be
    called.  [isServerRunning] hands on either result. *)
Theorem probe_rejects_bad_port (port : Z) :
  (∀ r : Probe.remote,
     if Probe.valid_port port
     then ∃ b : bool,
            Probe.checkIfServerRunning port r = Fulfilled b
            ∧ (Probe.unreachable r → b = false)
            ∧ 0 <= Probe.duration r <= Probe.timeout
     else Probe.checkIfServerRunning port r = RejectedWith (SocketBadPort port))
  ∧ (∀ r : LegacyProbe.peer,
       if LegacyProbe.valid_port port
       then ∃ b : bool,
              LegacyProbe.checkIfServerRunning port r = Fulfilled b
              ∧ (LegacyProbe.unreachable r → b = false)
              ∧ 0 <= LegacyProbe.duration r <= LegacyProbe.timeout
       else LegacyProbe.checkIfServerRunning port r
            = RejectedWith (SocketBadPort port))
  ∧ (∀ (w : world) (r : Probe.remote), ∃ w' : world,
       run w [CallIsServerRunning; wait (Probe.duration r);
              ProbeDone (next_call w) r] = Some w'
       ∧ outcomes w' !! next_call w =
           match Probe.checkIfServerRunning (_serverPort (mgr w)) r with
           | Fulfilled b => Some (IsRunningResolved b)
           | RejectedWith e => Some (IsRunningRejected e)
           | Pending => None
           end)
  ∧ (Probe.valid_port port = LegacyProbe.valid_port port
     ∧ (Probe.valid_port port = true ↔ 0 <= port <= 65535)).
Proof.
  split_and!.
  - intros r. destruct (Probe.valid_port port) eqn:Hp.
    + eexists. split; [by apply ProbeFacts.checkIfServerRunning_fulfilled|].
      split; [|apply ProbeFacts.duration_bounds].
      destruct r as [?|after statusCode|]; simpl; try done.
      intros Hlate. apply andb_false_intro1. unfold Probe.timeout in *. lia.
    + by apply ProbeFacts.checkIfServerRunning_rejected.
  - intros r. unfold LegacyProbe.checkIfServerRunning.
    destruct (LegacyProbe.valid_port port); [|done].
    eexists. split; [apply ProbeFacts.legacy_request_fulfilled|].
    split; [|apply ProbeFacts.legacy_duration_bounds].
    destruct r as [?|after|]; simpl; try done.
    intros Hlate. unfold LegacyProbe.timeout in *. lia.
  - intros w r. pose proof (ProbeFacts.duration_bounds r) as Hd.
    destruct w as [[? ? p ?] ? ? ? ? ? ? ? ?].
    erewrite run_cons by reflexivity.
    erewrite run_cons by apply step_wait.
    cbn [mgr _serverPort next_call].
    destruct (Probe.valid_port p) eqn:Hp.
    + erewrite run_cons.
      2:{ eapply step_isRunning_probe; [| |exact Hp].
          - code. fields. apply lookup_insert_eq.
          - code. fields. lia. }
      eexists. split; [reflexivity|]. rewrite succeeds_spec by done.
      code. fields. apply lookup_insert_eq.
    + erewrite run_cons.
      2:{ eapply step_isRunning_probe_rejected; [| |exact Hp].
          - code. fields. apply lookup_insert_eq.
          - code. fields. lia. }
      eexists. split; [reflexivity|].
      rewrite ProbeFacts.checkIfServerRunning_rejected by done.
      code. fields. apply lookup_insert_eq.
  - done.
  - unfold Probe.valid_port. rewrite andb_true_iff, !Z.leb_le. done.
Qed.

Lemma probe_rejects_bad_port_witness :
  Probe.checkIfServerRunning 65536 (Probe.Responds 0 200)
  = RejectedWith (SocketBadPort 65536)
  ∧ ∃ b : bool,
      Probe.checkIfServerRunning 3000 Probe.Silent = Fulfilled b ∧ b = false.
Proof.
  split.
  - exact (proj1 (probe_rejects_bad_port 65536) (Probe.Responds 0 200)).
  - destruct (proj1 (probe_rejects_bad_port 3000) Probe.Silent)
      as (b & Hb & Hfalse & _).
    exists b. split; [exact Hb | exact (Hfalse I)].
Defined.
(** *** Terminals *)

Lemma boot_consistent : consistent boot.
Proof. split_and!; [set_solver | done | done]. Qed.

(** Reads a lookup in an updated task table back to the table before. *)
Ltac task_lookup :=
  repeat match goal with
         | H : <[_:=_]> _ !! _ = Some _ |- _ =>
             apply lookup_insert_Some in H as [[<- _]|[_ H]]
         | H : delete _ _ !! _ = Some _ |- _ =>
             apply lookup_delete_Some in H as [_ H]
         end.

Lemma step_consistent (w w' : world) (ev : event) :
  consistent w → step w ev = Some w' → consistent w'.
Proof.
  intros (Hbelow & Howned & Hcalled) H.
  destruct w as [[? ? ? ?] ? ? ? ? ? ? ? ?].
  fields in Hbelow. fields in Howned. fields in Hcalled.
  step_paths H; code; repeat case_match; simplify_eq; split_and!; fields.
  all: try (intros x;
     rewrite ?elem_of_union, ?elem_of_singleton, ?elem_of_difference;
     intros Hx; simplify_eq; destruct_or?; destruct_and?; subst;
     first [lia | by auto
           | by (match goal with Hin : _ ∈ _ |- _ => apply Hbelow in Hin end; lia)
           | by (match goal with Hin : _ ∈ _ |- _ => apply Hbelow in Hin end;
                 try lia; set_solver) ]).
  all: intros x tk Hx; task_lookup;
    repeat match goal with
           | Hk : _ !! _ = Some _ |- _ => apply Hcalled in Hk
           end; lia.
Qed.

Lemma run_consistent (evs : list event) (w w' : world) :
  consistent w → run w evs = Some w' → consistent w'.
Proof.
  revert w. induction evs as [|ev evs IH]; intros w Hw H; simpl in H.
  - by simplify_eq.
  - destruct (step w ev) as [w1|] eqn:Hstep; [|done].
    eapply IH; [by eapply step_consistent | done].
Qed.

(** C2 (as amended): the class holds at most one terminal reference, and it
    names a live terminal.  A start whose first probe finds the port
    reachable resolves without creating a terminal.  A start whose first
    probe fails creates a new terminal and overwrites the reference, whatever
    it held, so the live terminals are not bounded by one.  (A first probe
    that Node rejects leaves the call pending, and creates nothing.) *)
Theorem start_creates_terminal_unless_reachable (evs : list event) (w : world) :
  run boot evs = Some w →
  (∀ t, _terminal (mgr w) = Some t → t ∈ live w)
  ∧ ∀ (c : nat) (uri : bool) (path : string) (p since : Z)
      (r : Probe.remote) (w' : world),
      tasks w !! c = Some (StartProbing uri path p since) →
      step w (ProbeDone c r) = Some w' →
      match Probe.checkIfServerRunning p r with
      | Fulfilled true =>
          live w' = live w
          ∧ next_terminal w' = next_terminal w
          ∧ _terminal (mgr w') = _terminal (mgr w)
          ∧ outcomes w' !! c = Some StartResolved
      | Fulfilled false =>
          live w' = {[next_terminal w]} ∪ live w
          ∧ (next_terminal w ∉ live w)
          ∧ _terminal (mgr w') = Some (next_terminal w)
      | _ =>
          live w' = live w
          ∧ next_terminal w' = next_terminal w
          ∧ _terminal (mgr w') = _terminal (mgr w)
          ∧ outcomes w' !! c = Some StartHung
      end.
Proof.
  intros Hrun.
  destruct (run_consistent _ _ _ boot_consistent Hrun) as (Hbelow & Howned & _).
  split; [exact Howned|].
  intros c uri path p since r w' Htask Hstep.
  assert (Hfresh : next_terminal w ∉ live w).
  { intros Hin. apply Hbelow in Hin. lia. }
  cbn [step] in Hstep. rewrite Htask in Hstep.
  destruct (settled_by since r w); [|done].
  destruct w as [[? ? ? ?] ? ? ? ? ? ? ? ?]. fields in Hfresh.
  destruct (Probe.checkIfServerRunning p r) as [|[|]|e]; simplify_eq; code.
  - destruct uri; fields; split_and!; first [apply lookup_insert_eq | done].
  - destruct (truthy path); fields; split_and!; done.
  - fields; split_and!; first [apply lookup_insert_eq | done].
Qed.

Lemma start_creates_terminal_unless_reachable_witness :
  ∃ w', step looking_up (CallStart false) = Some w'
        ∧ (∀ t, _terminal (mgr w') = Some t → t ∈ live w').
Proof.
  eexists. split; [reflexivity|].
  refine (proj1 (start_creates_terminal_unless_reachable
    [CallStart false; ProbeDone 0 (Probe.Refuses 0); CallStart false] _ _)).
  vm_compute. reflexivity.
Defined.

(** Two starts, each finding the port closed, give two live terminals. *)
Lemma two_starts_two_terminals :
  ∃ w, run boot [CallStart false; ProbeDone 0 (Probe.Refuses 0);
                 CommandExistsDone 0 true;
                 CallStart false; ProbeDone 1 (Probe.Refuses 0)] = Some w
       ∧ size (live w) = 2%nat
       ∧ _terminal (mgr w) = Some 1%nat
       ∧ mid_poll w 0 = true.
Proof.
  apply run_observe. vm_compute. done.
Qed.

(** C2, refuted as stated: a second [startServer] issued while the first one
    polls, with the port still closed, leaves two live terminals. *)
Lemma at_most_one_live_terminal_fails : ¬ at_most_one_live_terminal.
Proof.
  intros Hclaim.
  destruct two_starts_two_terminals as (w & Hrun & Hlive & _).
  specialize (Hclaim _ _ Hrun). lia.
Qed.

(** C3: with the port closed and none of [npx], [pnpm], [yarn] installed,
    [startServer] rejects for want of a launcher, yet the terminal it created
    before looking for one is still owned and still live afterwards. *)
Theorem no_launcher_leaves_terminal :
  ∃ w, run boot [CallStart false; ProbeDone 0 (Probe.Refuses 0);
                 CommandExistsDone 0 false; CommandExistsDone 0 false; CommandExistsDone 0 false]
       = Some w
       ∧ outcomes w !! 0%nat = Some (StartRejected NoLauncher)
       ∧ getServerStatus w = false
       ∧ _terminal (mgr w) = Some 0%nat
       ∧ elements (live w) = [0%nat]
       ∧ log w = [ShowErrorMessage NoPackageManager; CreateTerminal 0%nat;
                HttpGet 3000].
Proof.
  apply run_observe. vm_compute. done.
Qed.

(** *** Adoption *)

(** After an adoption the flag is set and no terminal is owned. *)
Lemma adopted_state :
  ∃ w, run boot [CallStart false; ProbeDone 0 (Probe.Responds 0 200)] = Some w
       ∧ outcomes w !! 0%nat = Some StartResolved
       ∧ getServerStatus w = true
       ∧ _terminal (mgr w) = None.
Proof. apply run_observe. vm_compute. done. Qed.

(** C6, refuted as stated: after [startServer] has adopted a server that was
    already listening, [stopServer] leaves the cached flag [true]. *)
Lemma stop_always_idles_fails : ¬ stop_always_idles.
Proof.
  intros Hclaim.
  destruct adopted_state as (w & Hrun & _ & Hflag & Hnone).
  destruct (Hclaim _ w Probe.Silent Hrun) as (w' & Hstop & Hidle & _).
  destruct (solo_stop_ends w Probe.Silent) as (w'' & Hstop' & _ & _ & Hsame & _).
  rewrite Hnone, Hflag in Hsame. congruence.
Qed.





(** *** Polling *)

Lemma elapsed_nonneg (rs : list Probe.remote) : 0 <= Scenarios.elapsed rs.
Proof.
  induction rs as [|r rs IH]; simpl; [lia|].
  pose proof (ProbeFacts.duration_bounds r). unfold checkInterval. lia.
Qed.

Lemma elapsed_cons (r : Probe.remote) (rs : list Probe.remote) :
  Scenarios.elapsed (r :: rs)
  = checkInterval + Probe.duration r + Scenarios.elapsed rs.
Proof. reflexivity. Qed.

Lemma elapsed_app (rs1 rs2 : list Probe.remote) :
  Scenarios.elapsed (rs1 ++ rs2) = Scenarios.elapsed rs1 + Scenarios.elapsed rs2.
Proof. induction rs1 as [|r rs1 IH]; simpl; lia. Qed.

(** The turn that hands a poll its probe, whatever the probe gave. *)
Lemma step_poll_probed (w : world) (c : nat) (uri : bool)
    (p since : Z) (r : Probe.remote) :
  tasks w !! c = Some (PollProbing uri p since) →
  since + Probe.duration r <= now w →
  step w (ProbeDone c r)
  = Some (checkServer c uri (Probe.checkIfServerRunning p r) w).
Proof.
  intros Ht Hs. destruct (Probe.valid_port p) eqn:Hp.
  - rewrite succeeds_spec by done. by eapply step_poll_probe.
  - rewrite ProbeFacts.checkIfServerRunning_rejected by done.
    by eapply step_poll_probe_rejected.
Qed.

Lemma resume_waiting (w : world) (c : nat) (uri : bool) (due : Z)
    (r : Probe.remote) :
  tasks w !! c = Some (PollWaiting uri due) →
  let t := now w + Z.max 0 (due - now w) in
  run w (resume_poll w c r) =
  Some (checkServer c uri (Probe.checkIfServerRunning (_serverPort (mgr w)) r)
          (set_now (t + Z.max 0 (Probe.duration r))
             (probe_then c (PollProbing uri) (set_now t w)))).
Proof.
  intros Ht t. subst t. unfold resume_poll. rewrite Ht.
  pose proof (ProbeFacts.duration_bounds r) as Hd.
  destruct w as [[? ? ? ?] ? ? ? ? ? ? ? ?]. fields in Ht.
  erewrite run_cons by apply step_wait.
  erewrite run_cons.
  2:{ eapply step_timer; fields; [exact Ht | lia]. }
  erewrite run_cons by apply step_wait.
  erewrite run_cons; [reflexivity|].
  eapply step_poll_probed; unfold probe_then; fields;
    [apply lookup_insert_eq | lia].
Qed.

Lemma resume_probing (w : world) (c : nat) (uri : bool) (p since : Z)
    (r : Probe.remote) :
  tasks w !! c = Some (PollProbing uri p since) →
  run w (resume_poll w c r) =
  Some (checkServer c uri (Probe.checkIfServerRunning p r)
          (set_now (now w + Z.max 0 (since + Probe.duration r - now w)) w)).
Proof.
  intros Ht. unfold resume_poll. rewrite Ht.
  destruct w as [[? ? ? ?] ? ? ? ? ? ? ? ?]. fields in Ht.
  erewrite run_cons by apply step_wait.
  erewrite run_cons; [reflexivity|].
  eapply step_poll_probed; fields; [exact Ht | lia].
Qed.

(** One round of the poll, whatever the peer does: the timer fires when it
    is due and the probe settles as soon as it can. *)
Lemma poll_round (w : world) (c : nat) (uri : bool) (due : Z)
    (r : Probe.remote) :
  tasks w !! c = Some (PollWaiting uri due) →
  now w <= due →
  ∃ w1, run w (resume_poll w c r) = Some w1
        ∧ now w1 = due + Probe.duration r
        ∧ _terminal (mgr w1) = _terminal (mgr w)
        ∧ _serverStartTime (mgr w1) = _serverStartTime (mgr w)
        ∧ _serverPort (mgr w1) = _serverPort (mgr w)
        ∧ live w1 = live w
        ∧ match Probe.checkIfServerRunning (_serverPort (mgr w)) r with
          | Fulfilled true =>
              outcomes w1 !! c = Some StartResolved
              ∧ tasks w1 !! c = None
              ∧ _isRunning (mgr w1) = true
              ∧ Scenarios.workbench_timers (log w1) =
                  (if uri then [500] else []) ++ Scenarios.workbench_timers (log w)
          | Fulfilled false =>
              Scenarios.workbench_timers (log w1) = Scenarios.workbench_timers (log w)
              ∧ if due + Probe.duration r - _serverStartTime (mgr w)
                   >? _maxStartupTime
                then outcomes w1 !! c = Some (StartRejected StartupTimeout)
                     ∧ tasks w1 !! c = None
                     ∧ _isRunning (mgr w1) = false
                else tasks w1 !! c = Some (PollWaiting uri (now w1 + checkInterval))
                     ∧ outcomes w1 !! c = outcomes w !! c
                     ∧ _isRunning (mgr w1) = _isRunning (mgr w)
          | RejectedWith e =>
              outcomes w1 !! c = Some (StartRejected e)
              ∧ tasks w1 !! c = None
              ∧ _isRunning (mgr w1) = _isRunning (mgr w)
              ∧ Scenarios.workbench_timers (log w1) = Scenarios.workbench_timers (log w)
          | Pending => False
          end.
Proof.
  intros Ht Hnow. pose proof (ProbeFacts.duration_bounds r) as Hd.
  rewrite (resume_waiting _ _ _ _ _ Ht). cbv zeta.
  replace (now w + 0 `max` (due - now w)) with due by lia.
  replace (0 `max` Probe.duration r) with (Probe.duration r) by lia.
  eexists. split; [reflexivity|].
  pose proof (probe_not_pending (_serverPort (mgr w)) r) as Hsettled.
  destruct w as [[? ? ? st] ? ? ? ? ? ? ? ?].
  unfold checkServer, probe_then, Scenarios.workbench_timers.
  fields in Hsettled.
  destruct (Probe.checkIfServerRunning _ r) as [|[|]|e]; [done|..].
  - destruct uri; fields; split_and!;
      first [apply lookup_insert_eq | apply lookup_delete_eq | reflexivity].
  - fields.
    destruct (due + Probe.duration r - st >? _maxStartupTime); fields;
      split_and!;
      first [apply lookup_insert_eq | apply lookup_delete_eq | reflexivity].
  - fields; split_and!;
      first [apply lookup_insert_eq | apply lookup_delete_eq | reflexivity].
Qed.

Lemma poll_until_settled_done (c : nat) (rs : list Probe.remote) (w : world)
    (o : outcome) :
  outcomes w !! c = Some o → poll_until_settled c rs w = Some w.
Proof. intros Ho. destruct rs; simpl; by rewrite Ho. Qed.

(** What [launch] leaves behind when a terminal is owned. *)
Lemma launch_state (w : world) (c : nat) (uri : bool) (cmd : command)
    (t : terminal) :
  _terminal (mgr w) = Some t →
  let w0 := launch c uri cmd w in
  tasks w0 !! c = Some (PollWaiting uri (now w + checkInterval))
  ∧ outcomes w0 = outcomes w
  ∧ now w0 = now w
  ∧ _serverStartTime (mgr w0) = now w
  ∧ _serverPort (mgr w0) = _serverPort (mgr w)
  ∧ _terminal (mgr w0) = Some t
  ∧ live w0 = live w
  ∧ Scenarios.workbench_timers (log w0) = Scenarios.workbench_timers (log w)
  ∧ (∀ c', c' ≠ c → tasks w0 !! c' = tasks w !! c').
Proof.
  intros Hterm. destruct w as [[? ? ? ?] ? ? ? ? ? ? ? ?].
  simpl in Hterm. subst.
  unfold launch, _pollServerStatus, Scenarios.workbench_timers.
  fields. split_and!; try first [apply lookup_insert_eq | reflexivity].
  intros c' Hc'. by rewrite lookup_insert_ne.
Qed.

(** A poll whose probes all fail gives up at the first probe that ends
    after the deadline: the [k]-th. *)
Lemma poll_times_out (n : nat) :
  ∀ (rs : list Probe.remote) (w : world) (c : nat) (uri : bool) (due : Z),
    tasks w !! c = Some (PollWaiting uri due) →
    outcomes w !! c = None →
    now w <= due →
    due <= _serverStartTime (mgr w) + _maxStartupTime + checkInterval →
    _serverStartTime (mgr w) + _maxStartupTime + checkInterval - due
      < checkInterval * Z.of_nat n →
    (n ≤ length rs)%nat →
    Forall (λ r, Probe.checkIfServerRunning (_serverPort (mgr w)) r
                 = Fulfilled false) rs →
    ∃ w' k, (0 < k ≤ n)%nat
          ∧ poll_until_settled c rs w = Some w'
          ∧ outcomes w' !! c = Some (StartRejected StartupTimeout)
          ∧ tasks w' !! c = None
          ∧ now w' = due - checkInterval + Scenarios.elapsed (take k rs)
          ∧ due - checkInterval + Scenarios.elapsed (take (k - 1) rs)
              <= _serverStartTime (mgr w) + _maxStartupTime
          ∧ _serverStartTime (mgr w) + _maxStartupTime < now w'
          ∧ now w' <= _serverStartTime (mgr w) + _maxStartupTime
                      + checkInterval + Probe.timeout
          ∧ _isRunning (mgr w') = false
          ∧ _terminal (mgr w') = _terminal (mgr w)
          ∧ live w' = live w.
Proof.
  unfold checkInterval, _maxStartupTime, Probe.timeout.
  induction n as [|n IH]; intros rs w c uri due Ht Ho Hnow Hdue Hleft Hlen Hrs.
  { lia. }
  destruct rs as [|r rs]; [simpl in Hlen; lia|].
  apply Forall_cons in Hrs as [Hr Hrs]. simpl in Hlen.
  pose proof (ProbeFacts.duration_bounds r) as Hd. unfold Probe.timeout in Hd.
  destruct (poll_round w c uri due r Ht Hnow)
    as (w1 & Hrun & Hnow1 & Hterm & Hstart & Hport & Hlive & Hcase).
  rewrite Hr in Hcase. destruct Hcase as [_ Hcase].
  cbn [poll_until_settled]. rewrite Ho, Hrun. cbn [mbind option_bind].
  unfold _maxStartupTime, checkInterval in Hcase.
  destruct (due + Probe.duration r - _serverStartTime (mgr w) >? 30000) eqn:Hlate.
  - destruct Hcase as (Hrej & Hgone & Hflag). exists w1, 1%nat.
    rewrite (poll_until_settled_done _ _ _ _ Hrej).
    cbn [Nat.sub]. rewrite firstn_cons, !take_0, elapsed_cons.
    cbn [Scenarios.elapsed foldr]. unfold checkInterval.
    split_and!; try done; lia.
  - destruct Hcase as (Ht1 & Ho1 & Hflag).
    destruct (IH rs w1 c uri (now w1 + 500)) as (w' & k & Hk & Hrun' & Hrest);
      try done; try lia.
    { congruence. }
    { by rewrite Hport. }
    exists w', (S k). rewrite Hstart, Hterm, Hlive in Hrest.
    destruct Hrest as (Hrej & Hgone & Htime & Hprev & Hlo & Hhi & Hrest).
    split; [lia|]. split; [exact Hrun'|].
    destruct k as [|k]; [lia|].
    destruct Hrest as (Hflag' & Hterm' & Hlive').
    revert Htime Hprev. cbn [Nat.sub]. rewrite !Nat.sub_0_r, !firstn_cons.
    rewrite !elapsed_cons. unfold checkInterval. intros Htime Hprev.
    split_and!; try done; lia.
Qed.

(** C4 (as amended): a [startServer] that has launched and whose probes all
    find the port closed is rejected with the timeout error, provided no
    other [startServer] launches while it polls.  With every timer and
    every answer taken as soon as it is due, the poll probes again
    [checkInterval] after each failed probe, and gives up at the first
    failed probe that ends more than [_maxStartupTime] after the launch;
    that is at most [_maxStartupTime + checkInterval + Probe.timeout] after
    the launch, and within 61 probes.  The cached flag is then [false], and
    the terminal is still owned and still live.  The launch time is kept in
    one field for all calls: every launch overwrites it, and a failed probe
    of any polling call is measured against what it holds then. *)
Theorem start_times_out (w : world) (c : nat) (uri : bool) (cmd : command)
    (t : terminal) (rs : list Probe.remote) :
  _terminal (mgr w) = Some t →
  outcomes w !! c = None →
  Forall (λ r, Probe.checkIfServerRunning (_serverPort (mgr w)) r
               = Fulfilled false) rs →
  (61 ≤ length rs)%nat →
  (∃ w' k, (0 < k ≤ 61)%nat
        ∧ poll_until_settled c rs (launch c uri cmd w) = Some w'
        ∧ outcomes w' !! c = Some (StartRejected StartupTimeout)
        ∧ tasks w' !! c = None
        ∧ now w' - now w = Scenarios.elapsed (take k rs)
        ∧ Scenarios.elapsed (take (k - 1) rs) <= _maxStartupTime
        ∧ _maxStartupTime < Scenarios.elapsed (take k rs)
        ∧ now w' - now w <= _maxStartupTime + checkInterval + Probe.timeout
        ∧ getServerStatus w' = false
        ∧ _terminal (mgr w') = Some t
        ∧ live w' = live w)
  ∧ (∀ (v : world) (c' : nat) (uri' : bool) (cmd' : command) (t' : terminal),
       _terminal (mgr v) = Some t' → c' ≠ c →
       _serverStartTime (mgr (launch c' uri' cmd' v)) = now v
       ∧ tasks (launch c' uri' cmd' v) !! c = tasks v !! c)
  ∧ (∀ (v v' : world) (uri' : bool) (p since : Z) (r : Probe.remote),
       tasks v !! c = Some (PollProbing uri' p since) →
       Probe.checkIfServerRunning p r = Fulfilled false →
       step v (ProbeDone c r) = Some v' →
       _terminal (mgr v') = _terminal (mgr v)
       ∧ live v' = live v
       ∧ if now v - _serverStartTime (mgr v) >? _maxStartupTime
         then outcomes v' !! c = Some (StartRejected StartupTimeout)
              ∧ tasks v' !! c = None
              ∧ getServerStatus v' = false
         else tasks v' !! c = Some (PollWaiting uri' (now v + checkInterval))
              ∧ outcomes v' !! c = outcomes v !! c).
Proof.
  intros Hterm Hout Hrs Hlen. split_and!.
  - destruct (launch_state w c uri cmd t Hterm)
      as (Ht0 & Ho0 & Hnow0 & Hstart0 & Hport0 & Hterm0 & Hlive0 & _).
    destruct (poll_times_out 61 rs (launch c uri cmd w) c uri
                (now w + checkInterval))
      as (w' & k & Hk & Hrun & Hrej & Hgone & Htime & Hprev & Hlo & Hhi
          & Hflag & Hsame & Hlive); try done.
    + by rewrite Ho0.
    + rewrite Hnow0. unfold checkInterval. lia.
    + rewrite Hstart0. unfold _maxStartupTime. lia.
    + rewrite Hstart0. unfold checkInterval, _maxStartupTime. lia.
    + by rewrite Hport0.
    + exists w', k. rewrite Hstart0 in Hprev, Hlo, Hhi.
      rewrite Hterm0 in Hsame. rewrite Hlive0 in Hlive.
      split_and!; try done; lia.
  - intros v c' uri' cmd' t' Hv Hc.
    destruct (launch_state v c' uri' cmd' t' Hv)
      as (_ & _ & _ & Hstart & _ & _ & _ & _ & Hothers).
    split; [exact Hstart | by apply Hothers].
  - intros v v' uri' p since r Ht Hr Hstep.
    cbn [step] in Hstep. rewrite Ht in Hstep.
    destruct (settled_by since r v); [|done].
    rewrite Hr in Hstep. simplify_eq.
    destruct v as [[? ? ? st] ? tm ? ? ? ? ? ?]. unfold checkServer. fields.
    destruct (tm - st >? _maxStartupTime); fields; split_and!;
      first [apply lookup_insert_eq | apply lookup_delete_eq | reflexivity].
Qed.

Lemma start_times_out_witness :
  ∃ w', poll_until_settled 0 (replicate 61 Probe.Silent)
          (launch 0 false (Command (Via Npx) 3000) looking_up) = Some w'
        ∧ outcomes w' !! 0%nat = Some (StartRejected StartupTimeout)
        ∧ now w' - now looking_up <= 31500
        ∧ getServerStatus w' = false
        ∧ _terminal (mgr w') = Some 0%nat.
Proof.
  destruct (start_times_out looking_up 0 false (Command (Via Npx) 3000) 0%nat
              (replicate 61 Probe.Silent))
    as [(w' & k & _ & Hrun & Hrej & _ & _ & _ & _ & Hhi & Hflag & Hterm & _) _].
  - vm_compute. reflexivity.
  - vm_compute. reflexivity.
  - apply Forall_replicate. vm_compute. reflexivity.
  - rewrite length_replicate. lia.
  - exists w'. split_and!; assumption.
Defined.

(** The first start is still polling 58.5 seconds after its launch: its
    probe fails then, and the timer is set once more. *)
Lemma overtaken_still_polls :
  from_option
    (λ w2, now w2 - now looking_up = 58500
           ∧ Probe.checkIfServerRunning (poll_port w2 0) (Probe.Refuses 0)
             = Fulfilled false
           ∧ from_option
               (λ w3, outcomes w3 !! 0%nat = None ∧ mid_poll w3 0 = true)
               False
               (step w2 (ProbeDone 0 (Probe.Refuses 0))))
    False
    (run polling overtaken).
Proof. vm_compute. done. Qed.

(** C4, refuted as stated: a second [startServer] that launches 29 seconds
    after the first moves the first one's deadline, so a probe of the first
    that fails 58.5 seconds after its launch does not reject it. *)
Lemma deadline_from_own_launch_fails : ¬ deadline_from_own_launch.
Proof.
  intros Hclaim. pose proof overtaken_still_polls as Hrun.
  destruct (run polling overtaken) as [w2|] eqn:Hw2; [|done].
  destruct Hrun as (Hnow & Hprobe & Hstep).
  destruct (step w2 (ProbeDone 0 (Probe.Refuses 0))) as [w3|] eqn:Hw3; [|done].
  destruct Hstep as [Hout _].
  assert (outcomes w3 !! 0%nat = Some (StartRejected StartupTimeout)) as Hrej.
  { apply (Hclaim [CallStart false; ProbeDone 0 (Probe.Refuses 0)] overtaken
             looking_up polling w2 w3 0%nat (Probe.Refuses 0)).
    - vm_compute. reflexivity.
    - vm_compute. reflexivity.
    - vm_compute. reflexivity.
    - exact Hw2.
    - exact Hprobe.
    - exact Hw3.
    - unfold _maxStartupTime. lia. }
  congruence.
Qed.
(** *** Stopping during a poll *)

(** A stop that arrives while the poll's probe is in flight: the probe's
    answer still counts. *)
Lemma stop_then_late_answer :
  ∃ w1, run boot [CallStart false; ProbeDone 0 (Probe.Refuses 0);
                  CommandExistsDone 0 true; wait 500; TimerFired 0] = Some w1
        ∧ mid_poll w1 0 = true
        ∧ from_option
            (λ w2, tasks w2 = ∅
                   ∧ getServerStatus w2 = true
                   ∧ _terminal (mgr w2) = None
                   ∧ outcomes w2 !! 0%nat = Some StartResolved)
            False
            (run w1 [CallStop; ProbeDone 0 (Probe.Responds 0 200);
                     ProbeDone 1 (Probe.Refuses 0)]).
Proof. apply run_observe. vm_compute. done. Qed.

(** C1, refuted as stated: [stopServer] is called while the poll's probe is
    in flight, the probe then succeeds, and the run ends with the cached flag
    [true] and the start resolved. *)
Lemma stop_cancels_start_fails : ¬ stop_cancels_start.
Proof.
  intros Hclaim.
  destruct stop_then_late_answer as (w1 & Hrun1 & Hmid & Hrest).
  destruct (run w1 [CallStop; ProbeDone 0 (Probe.Responds 0 200);
                    ProbeDone 1 (Probe.Refuses 0)]) as [w2|] eqn:Hrun2;
    [|done].
  destruct Hrest as (Hdone & Hflag & _).
  destruct (Hclaim _ [ProbeDone 0 (Probe.Responds 0 200);
                       ProbeDone 1 (Probe.Refuses 0)] _ _ _
                   Hrun1 Hmid eq_refl Hrun2 Hdone) as [Hidle _].
  congruence.
Qed.

(** C1 (as amended): [stopServer] called while a start polls disposes the
    terminal and clears the cached flag, but the poll goes on.  If its next
    probe succeeds the start resolves and the flag is [true] again, with no
    terminal owned; if it fails the flag stays [false], and the start is
    rejected for the timeout or keeps polling.  (If Node rejects the probe,
    the start is rejected with that error and the flag stays [false].) *)
Theorem stop_does_not_cancel_poll (evs : list event) (w : world) (c : nat)
    (t : terminal) (r : Probe.remote) :
  run boot evs = Some w →
  mid_poll w c = true →
  _terminal (mgr w) = Some t →
  ∃ w1 w2,
    step w CallStop = Some w1
    ∧ _terminal (mgr w1) = None
    ∧ getServerStatus w1 = false
    ∧ (t ∉ live w1)
    ∧ tasks w1 !! c = tasks w !! c
    ∧ run w1 (resume_poll w1 c r) = Some w2
    ∧ _terminal (mgr w2) = None
    ∧ match Probe.checkIfServerRunning (poll_port w c) r with
      | Fulfilled true =>
          getServerStatus w2 = true
          ∧ outcomes w2 !! c = Some StartResolved
      | Fulfilled false =>
          getServerStatus w2 = false
          ∧ (outcomes w2 !! c = Some (StartRejected StartupTimeout)
             ∨ mid_poll w2 c = true)
      | RejectedWith e =>
          getServerStatus w2 = false
          ∧ outcomes w2 !! c = Some (StartRejected e)
      | Pending => False
      end.
Proof.
  intros Hreach Hmid Hterm.
  assert (Hne : next_call w ≠ c).
  { destruct (run_consistent _ _ _ boot_consistent Hreach) as (_ & _ & Hcalled).
    unfold mid_poll in Hmid.
    destruct (tasks w !! c) as [tk|] eqn:Htk; [|done].
    apply Hcalled in Htk. lia. }
  clear Hreach.
  pose proof (probe_not_pending (poll_port w c) r) as Hsettled.
  destruct w as [[? ? sp st] ? ? ? ? ? nc ts ?]. simpl in Hterm, Hne. subst.
  unfold mid_poll in Hmid. fields in Hmid.
  unfold poll_port in *. fields in Hsettled. fields.
  cbn [step next_call]. set (w1 := stopServer _ _).
  assert (Hts : tasks w1 !! c = ts !! c).
  { subst w1. unfold stopServer, probe_then. fields. by apply lookup_insert_ne. }
  assert (Hsp : _serverPort (mgr w1) = sp) by done.
  exists w1.
  destruct (ts !! c) as [[| | |uri due|uri p since| |]|] eqn:Ht; try done.
  - rewrite (resume_waiting _ _ _ _ _ Hts). cbv zeta. rewrite Hsp.
    eexists. split_and!;
      [reflexivity | | | | exact Hts | reflexivity | |];
      subst w1; unfold stopServer, probe_then, checkServer, mid_poll;
      destruct (Probe.checkIfServerRunning sp r) as [|[|]|e];
      try destruct uri; try destruct (_ >? _maxStartupTime);
      fields; rewrite ?lookup_insert_eq; split_and?;
      first [ done | left; reflexivity | right; reflexivity
            | apply not_elem_of_difference; right; by apply elem_of_singleton ].
  - rewrite (resume_probing _ _ _ _ _ _ Hts).
    eexists. split_and!;
      [reflexivity | | | | exact Hts | reflexivity | |];
      subst w1; unfold stopServer, probe_then, checkServer, mid_poll;
      destruct (Probe.checkIfServerRunning p r) as [|[|]|e];
      try destruct uri; try destruct (_ >? _maxStartupTime);
      fields; rewrite ?lookup_insert_eq; split_and?;
      first [ done | left; reflexivity | right; reflexivity
            | apply not_elem_of_difference; right; by apply elem_of_singleton ].
Qed.

Lemma stop_does_not_cancel_poll_witness :
  ∃ w1 w2,
    step polling CallStop = Some w1
    ∧ getServerStatus w1 = false
    ∧ run w1 (resume_poll w1 0 (Probe.Responds 0 200)) = Some w2
    ∧ getServerStatus w2 = true
    ∧ _terminal (mgr w2) = None.
Proof.
  destruct (stop_does_not_cancel_poll
              [CallStart false; ProbeDone 0 (Probe.Refuses 0); CommandExistsDone 0 true]
              polling 0 0%nat (Probe.Responds 0 200))
    as (w1 & w2 & Hstop & _ & Hidle & _ & _ & Hrun & Hnone & Hup & _).
  - vm_compute. reflexivity.
  - vm_compute. reflexivity.
  - vm_compute. reflexivity.
  - exists w1, w2. split_and!; assumption.
Defined.

End ServerManagerFacts.

(** ** Project detection *)

Module ProjectDetectorFacts.
Import ProjectDetector.

Lemma checkFolder_detects (fs : filesystem) (folder : string) :
  checkFolder fs folder = Normal (detects fs folder).
Proof.
  unfold checkFolder, detects, existsSync, statSync.
  destruct (fs (path_join folder "steps")) as [[|parsed]|]; try reflexivity;
    cbn [mbind completion_bind isDirectory];
    unfold hasMotiaDependency, readAndParse, try_catch;
    destruct (fs (path_join folder "package.json")) as [[|[[| | | | |members]|]]|];
    reflexivity.
Qed.

Lemma checkFolders_detects (fs : filesystem) (folders : list string) :
  checkFolders fs folders = Normal (existsb (detects fs) folders).
Proof.
  induction folders as [|folder rest IH]; [reflexivity|].
  cbn [checkFolders existsb]. rewrite checkFolder_detects.
  cbn [mbind completion_bind]. by destruct (detects fs folder).
Qed.

(** C10: [isMotiaProject] never throws.  It answers [false] when the
    workspace has no folders, and otherwise [true] exactly when some folder
    has a [steps] directory or a manifest that parses and names a Motia
    dependency.  A manifest that fails to parse counts as no match: the
    folder is passed over and the folders after it are still examined. *)
Theorem isMotiaProject_total (fs : filesystem) :
  isMotiaProject fs None = Normal false
  ∧ isMotiaProject fs (Some []) = Normal false
  ∧ (∀ folders : list string,
       isMotiaProject fs (Some folders) = Normal (existsb (detects fs) folders))
  ∧ (∀ (folder : string) (rest : list string),
       fs (path_join folder "steps") ≠ Some Directory →
       fs (path_join folder "package.json") = Some (File None) →
       try_catch (hasMotiaDependency fs (path_join folder "package.json"))
                 (λ _, Normal false) = Normal false
       ∧ isMotiaProject fs (Some (folder :: rest)) = isMotiaProject fs (Some rest)).
Proof.
  assert (Hall : ∀ folders : list string,
    isMotiaProject fs (Some folders) = Normal (existsb (detects fs) folders)).
  { intros [|folder rest]; [reflexivity|]. apply checkFolders_detects. }
  split_and!; [reflexivity | reflexivity | exact Hall |].
  intros folder rest Hsteps Hbad. split.
  - unfold hasMotiaDependency, readAndParse. by rewrite Hbad.
  - rewrite !Hall. cbn [existsb].
    assert (detects fs folder = false) as ->; [|reflexivity].
    unfold detects. rewrite Hbad.
    by destruct (fs (path_join folder "steps")) as [[|?]|].
Qed.

Lemma isMotiaProject_total_witness :
  isMotiaProject sample_workspace (Some ["/work/broken"; "/work/app"]) =
  isMotiaProject sample_workspace (Some ["/work/app"])
  ∧ isMotiaProject sample_workspace (Some ["/work/broken"; "/work/app"]) =
    Normal true.
Proof.
  destruct (isMotiaProject_total sample_workspace) as (_ & _ & _ & Hskip).
  destruct (Hskip "/work/broken" ["/work/app"]) as [_ Heq].
  - vm_compute. discriminate.
  - vm_compute. reflexivity.
  - split; [exact Heq|]. vm_compute. reflexivity.
Defined.

End ProjectDetectorFacts.

(** ** Whole calls of the coordinator *)

Module ScenarioFacts.
Import ServerManager ServerManagerFacts Scenarios.

Lemma poll_succeeds_from (fails : list Probe.remote) :
  ∀ (w : world) (c : nat) (uri : bool) (due : Z) (r : Probe.remote)
    (rest : list Probe.remote),
    tasks w !! c = Some (PollWaiting uri due) →
    outcomes w !! c = None →
    now w <= due →
    Forall (λ f, Probe.checkIfServerRunning (_serverPort (mgr w)) f
                 = Fulfilled false) fails →
    Probe.checkIfServerRunning (_serverPort (mgr w)) r = Fulfilled true →
    due - checkInterval + elapsed fails - _serverStartTime (mgr w)
      <= _maxStartupTime →
    ∃ w', poll_until_settled c (fails ++ r :: rest) w = Some w'
          ∧ outcomes w' !! c = Some StartResolved
          ∧ tasks w' !! c = None
          ∧ now w' = due - checkInterval + elapsed (fails ++ [r])
          ∧ _isRunning (mgr w') = true
          ∧ _terminal (mgr w') = _terminal (mgr w)
          ∧ live w' = live w
          ∧ workbench_timers (log w') =
              (if uri then [500] else []) ++ workbench_timers (log w).
Proof.
  induction fails as [|f fails IH];
    intros w c uri due r rest Ht Ho Hnow Hfails Hr Hdeadline.
  - destruct (poll_round w c uri due r Ht Hnow)
      as (w1 & Hrun & Hnow1 & Hterm & Hstart & Hport & Hlive & Hcase).
    rewrite Hr in Hcase. destruct Hcase as (Hres & Hgone & Hflag & Hlog).
    exists w1. cbn [app poll_until_settled]. rewrite Ho, Hrun.
    cbn [mbind option_bind]. rewrite (poll_until_settled_done _ _ _ _ Hres).
    split_and!; try done. simpl. unfold checkInterval. lia.
  - apply Forall_cons in Hfails as [Hf Hfails].
    pose proof (elapsed_nonneg fails) as Hpos.
    pose proof (ProbeFacts.duration_bounds f) as Hd.
    destruct (poll_round w c uri due f Ht Hnow)
      as (w1 & Hrun & Hnow1 & Hterm & Hstart & Hport & Hlive & Hcase).
    rewrite Hf in Hcase. destruct Hcase as [Hlog Hcase].
    simpl in Hdeadline. unfold checkInterval, _maxStartupTime in *.
    destruct (due + Probe.duration f - _serverStartTime (mgr w) >? 30000)
      eqn:Hlate; [lia|].
    destruct Hcase as (Ht1 & Ho1 & Hflag).
    destruct (IH w1 c uri (now w1 + 500) r rest) as (w' & Hrun' & Hrest);
      try done; try lia.
    { congruence. }
    { by rewrite Hport. }
    { by rewrite Hport. }
    exists w'. cbn [app poll_until_settled]. rewrite Ho, Hrun.
    cbn [mbind option_bind]. split; [exact Hrun'|].
    rewrite Hterm, Hlive, Hlog in Hrest.
    destruct Hrest as (? & ? & Htime & ? & ? & ? & ?).
    split_and!; try done. rewrite Htime. simpl. unfold checkInterval. lia.
Qed.

(** X1: a launched start whose poll meets failing probes and then a
    successful one resolves at that probe, provided the last failing probe
    had ended within [_maxStartupTime] of the launch.  It resolves exactly
    when that probe answers, [checkInterval] plus the probe's duration per
    probe after the launch; the cached flag is set, the terminal is kept,
    and the workbench is scheduled once, 500 ms later, if an extension URI
    was given. *)
Theorem poll_succeeds (w : world) (c : nat) (uri : bool) (cmd : command)
    (t : terminal) (fails rest : list Probe.remote) (r : Probe.remote) :
  _terminal (mgr w) = Some t →
  outcomes w !! c = None →
  Forall (λ f, Probe.checkIfServerRunning (_serverPort (mgr w)) f
               = Fulfilled false) fails →
  Probe.checkIfServerRunning (_serverPort (mgr w)) r = Fulfilled true →
  elapsed fails <= _maxStartupTime →
  ∃ w', poll_until_settled c (fails ++ r :: rest) (launch c uri cmd w) = Some w'
        ∧ outcomes w' !! c = Some StartResolved
        ∧ tasks w' !! c = None
        ∧ now w' - now w = elapsed (fails ++ [r])
        ∧ getServerStatus w' = true
        ∧ _terminal (mgr w') = Some t
        ∧ live w' = live w
        ∧ workbench_timers (log w') =
            (if uri then [500] else []) ++ workbench_timers (log w).
Proof.
  intros Hterm Hout Hfails Hr Hdeadline.
  destruct (launch_state w c uri cmd t Hterm)
    as (Ht0 & Ho0 & Hnow0 & Hstart0 & Hport0 & Hterm0 & Hlive0 & Hlog0 & _).
  destruct (poll_succeeds_from fails (launch c uri cmd w) c uri
              (now w + checkInterval) r rest)
    as (w' & Hrun & Hres & Hgone & Htime & Hflag & Hsame & Hlive & Hlog);
    try done.
  - by rewrite Ho0.
  - rewrite Hnow0. unfold checkInterval. lia.
  - by rewrite Hport0.
  - by rewrite Hport0.
  - rewrite Hstart0. lia.
  - exists w'. rewrite Hterm0 in Hsame. rewrite Hlive0 in Hlive.
    rewrite Hlog0 in Hlog. split_and!; try done. lia.
Qed.

Lemma poll_succeeds_witness :
  ∃ w', poll_until_settled 0
          (replicate 3 (Probe.Refuses 0) ++ [Probe.Responds 20 200])
          (launch 0 true (Command (Via Npx) 3000) looking_up) = Some w'
        ∧ outcomes w' !! 0%nat = Some StartResolved
        ∧ now w' - now looking_up = 2020
        ∧ getServerStatus w' = true.
Proof.
  destruct (poll_succeeds looking_up 0 true (Command (Via Npx) 3000) 0%nat
              (replicate 3 (Probe.Refuses 0)) [] (Probe.Responds 20 200))
    as (w' & Hrun & Hres & _ & Htime & Hflag & _).
  - vm_compute. reflexivity.
  - vm_compute. reflexivity.
  - apply Forall_replicate. vm_compute. reflexivity.
  - vm_compute. reflexivity.
  - vm_compute. discriminate.
  - exists w'. split_and!; assumption.
Defined.








(** *** Settled calls *)

(** Records, for every call known to be pending or settled, that it has
    been made, and for the settled ones that nothing of them is pending. *)
Ltac known_calls Htasks Houts :=
  repeat match goal with
         | Hk : _ !! ?c = Some _ |- _ =>
             lazymatch goal with
             | _ : (c < _)%nat |- _ => fail
             | _ => first [pose proof (Htasks _ _ Hk)
                          | destruct (Houts _ _ Hk)]
             end
         end.

Lemma boot_quiet : quiet boot.
Proof. split; intros c x Hx; cbn in Hx; by rewrite lookup_empty in Hx. Qed.

Ltac map_lookup :=
  repeat match goal with
         | H : <[_:=_]> _ !! _ = Some _ |- _ =>
             apply lookup_insert_Some in H as [[<- _]|[? H]]
         | H : delete _ _ !! _ = Some _ |- _ =>
             apply lookup_delete_Some in H as [? H]
         end.

Lemma step_quiet (w w' : world) (ev : event) :
  quiet w → step w ev = Some w' → quiet w'.
Proof.
  intros [Htasks Houts] H. destruct w as [[? ? ? ?] ? ? ? ? ? nc ts os].
  fields in Htasks. fields in Houts.
  step_paths H; code; repeat case_match; simplify_eq; split; fields.
  all: cbn [tasks outcomes] in *; intros x y Hx; map_lookup;
    known_calls Htasks Houts;
    try lia; try (split; [lia|]);
    repeat match goal with
           | |- delete _ _ !! _ = None =>
               apply lookup_delete_None; first [by left | right]
           | |- <[_:=_]> _ !! _ = None =>
               apply lookup_insert_None; split; [|first [congruence | lia]]
           end;
    done.
Qed.

Lemma run_quiet (evs : list event) (w w' : world) :
  quiet w → run w evs = Some w' → quiet w'.
Proof.
  revert w. induction evs as [|ev evs IH]; intros w Hw H; simpl in H.
  - by simplify_eq.
  - destruct (step w ev) as [w1|] eqn:Hstep; [|done].
    eapply IH; [by eapply step_quiet | done].
Qed.

Lemma step_outcome_stable (w w' : world) (ev : event) (c : nat) (o : outcome) :
  quiet w → outcomes w !! c = Some o → step w ev = Some w' →
  outcomes w' !! c = Some o.
Proof.
  intros [Htasks Houts] Ho H. destruct w as [[? ? ? ?] ? ? ? ? ? nc ts os].
  fields in Htasks. fields in Houts. fields in Ho.
  destruct (Houts _ _ Ho) as [Hc Hnone].
  step_paths H; code; repeat case_match; simplify_eq; fields;
    cbn [tasks] in *; try done;
    rewrite lookup_insert_ne by congruence; done.
Qed.

Lemma run_outcome_stable (evs : list event) (w w' : world) (c : nat)
    (o : outcome) :
  quiet w → outcomes w !! c = Some o → run w evs = Some w' →
  outcomes w' !! c = Some o.
Proof.
  revert w. induction evs as [|ev evs IH]; intros w Hw Ho H; simpl in H.
  - by simplify_eq.
  - destruct (step w ev) as [w1|] eqn:Hstep; [|done].
    eapply IH; [by eapply step_quiet | by eapply step_outcome_stable | done].
Qed.

(** X4: a [startServer] can be left pending for ever, and in two ways only.
    Either Node rejects its first probe, for a port that is none; or the
    terminal reference is gone when the launcher has been found, which
    happens when [stopServer] is called during the lookup: line 96 then
    calls [sendText] on [undefined].  Both throw inside the async executor,
    which has no handler, so the promise is neither resolved nor rejected;
    nothing is sent or shown, and no later turn of the event loop settles
    the call. *)
Theorem start_hangs (evs evs' : list event) (w w' w'' : world) (ev : event)
    (c : nat) :
  run boot evs = Some w →
  step w ev = Some w' →
  outcomes w !! c ≠ Some StartHung →
  outcomes w' !! c = Some StartHung →
  mgr w' = mgr w ∧ log w' = log w ∧ live w' = live w
  ∧ tasks w' !! c = None
  ∧ ((∃ uri path p since r,
        ev = ProbeDone c r
        ∧ tasks w !! c = Some (StartProbing uri path p since)
        ∧ Probe.valid_port p = false)
     ∨ (∃ uri pm p,
          ev = CommandExistsDone c true
          ∧ tasks w !! c = Some (StartCommandExists uri pm p)
          ∧ _terminal (mgr w) = None))
  ∧ (run w' evs' = Some w'' → outcomes w'' !! c = Some StartHung).
Proof.
  intros Hrun Hstep Hnot Hhung.
  assert (Hq : quiet w') by
    (eapply step_quiet; [by eapply run_quiet, Hrun; apply boot_quiet | done]).
  split_and!; [..|intros Hlater; by eapply run_outcome_stable].
  all: clear Hrun Hq; destruct w as [[tm ? ? ?] ? ? ? ? ? nc ts os];
    step_paths Hstep; code; repeat case_match; simplify_eq;
    fields in Hhung; fields in Hnot; fields;
    try (apply lookup_insert_Some in Hhung as [[-> Hhung]|[_ Hhung]];
         [|done]);
    try done; simplify_eq; try apply lookup_delete_eq.
  - left. eexists _, _, _, _, _. split_and!; [done..|].
    match goal with
    | H : Probe.checkIfServerRunning _ _ = RejectedWith _ |- _ =>
        by apply probe_rejected in H as [? _]
    end.
  - right. by eexists _, _, _.
Qed.

Lemma start_hangs_witness :
  let evs := [CallStart false; ProbeDone 0 (Probe.Refuses 0); CallStop;
              ProbeDone 1 (Probe.Refuses 0)] in
  ∃ w w', run boot evs = Some w
          ∧ step w (CommandExistsDone 0 true) = Some w'
          ∧ outcomes w' !! 0%nat = Some StartHung
          ∧ log w' = log w
          ∧ _terminal (mgr w) = None.
Proof.
  intros evs.
  pose (w := default boot (run boot evs)).
  pose (w' := default boot (step w (CommandExistsDone 0 true))).
  destruct (start_hangs evs [] w w' w' (CommandExistsDone 0 true) 0%nat)
    as (_ & Hlog & _ & _ & Hhow & _).
  - vm_compute. reflexivity.
  - vm_compute. reflexivity.
  - vm_compute. discriminate.
  - vm_compute. reflexivity.
  - exists w, w'. split_and!; [vm_compute; reflexivity..| exact Hlog |].
    destruct Hhow as [(? & ? & ? & ? & ? & Hev & _)|(? & ? & ? & _ & _ & Hnone)];
      [discriminate Hev | exact Hnone].
Defined.

(** *** Terminals and the log *)

Lemma validate_shows (path : string) (found : bool) (version : option string)
    (isValid : bool) (shown : effect) :
  validateNodejsPath path found version = (isValid, shown) →
  (∃ m, shown = ShowInformationMessage m) ∨ (∃ m, shown = ShowErrorMessage m).
Proof.
  unfold validateNodejsPath. intros H.
  repeat case_match; simplify_eq; eauto.
Qed.

(** A turn leaves the terminals alone, creates one, or disposes the one
    that is owned. *)
Lemma step_terminals (w w' : world) (ev : event) :
  step w ev = Some w' →
  (live w' = live w ∧ next_terminal w' = next_terminal w
   ∧ created (log w') = created (log w)
   ∧ disposed (log w') = disposed (log w)
   ∧ _terminal (mgr w') = _terminal (mgr w))
  ∨ (live w' = {[next_terminal w]} ∪ live w
     ∧ next_terminal w' = S (next_terminal w)
     ∧ created (log w') = next_terminal w :: created (log w)
     ∧ disposed (log w') = disposed (log w)
     ∧ _terminal (mgr w') = Some (next_terminal w))
  ∨ (∃ t, _terminal (mgr w) = Some t
          ∧ live w' = live w ∖ {[t]}
          ∧ next_terminal w' = next_terminal w
          ∧ created (log w') = created (log w)
          ∧ disposed (log w') = t :: disposed (log w)
          ∧ _terminal (mgr w') = None).
Proof.
  intros H. destruct w as [[? ? ? ?] ? ? ? ? ? ? ? ?].
  step_paths H; code; repeat case_match; simplify_eq;
    repeat match goal with
           | Hv : validateNodejsPath _ _ _ = (_, _) |- _ =>
               apply validate_shows in Hv as [[? ->]|[? ->]]
           end;
    fields; cbn [created disposed];
    first [ by left
          | by right; left
          | right; right; eexists; by split_and! ].
Qed.

Lemma boot_accounted : accounted boot.
Proof.
  unfold accounted. cbn. split_and!; try by constructor.
  - intros t Ht. by apply elem_of_nil in Ht.
  - intros t Ht. by apply elem_of_nil in Ht.
  - intros t. split; [intros Ht; by apply elem_of_empty in Ht|].
    intros [Ht _]. by apply elem_of_nil in Ht.
  - done.
Qed.

Lemma step_accounted (w w' : world) (ev : event) :
  accounted w → step w ev = Some w' → accounted w'.
Proof.
  intros (Hbelow & Hcr & Hdi & Hsub & Hlive & Howned) H. unfold accounted.
  destruct (step_terminals _ _ _ H)
    as [(-> & -> & -> & -> & ->)
       |[(-> & -> & -> & -> & ->)
        |(t & Ht & -> & -> & -> & -> & ->)]].
  - by split_and!.
  - assert (Hnew : next_terminal w ∉ created (log w)).
    { intros Hin. apply Hbelow in Hin. lia. }
    split_and!.
    + intros t [->|Ht]%elem_of_cons; [lia|]. apply Hbelow in Ht. lia.
    + by constructor.
    + done.
    + intros t Ht. apply elem_of_cons. right. by apply Hsub.
    + intros t. rewrite elem_of_union, elem_of_singleton, elem_of_cons, Hlive.
      split.
      * intros [->|[? ?]]; [|by auto].
        split; [by left|]. intros Hd. by apply Hnew, Hsub.
      * intros [[->|?] ?]; by auto.
    + intros t [= <-]. apply elem_of_union. left. by apply elem_of_singleton.
  - pose proof (Howned _ Ht) as Hin. apply Hlive in Hin as [Hc Hnd].
    split_and!; try done.
    + by constructor.
    + intros t' [->|Ht']%elem_of_cons; [done | by apply Hsub].
    + intros t'. rewrite elem_of_difference, elem_of_singleton, elem_of_cons, Hlive.
      split.
      * intros [[? ?] ?]. split; [done|]. intros [?|?]; done.
      * intros [? Hno]. split_and!; [done | | ].
        -- intros Hd. apply Hno. by right.
        -- intros ->. apply Hno. by left.
Qed.

Lemma run_accounted (evs : list event) (w w' : world) :
  accounted w → run w evs = Some w' → accounted w'.
Proof.
  revert w. induction evs as [|ev evs IH]; intros w Hw H; simpl in H.
  - by simplify_eq.
  - destruct (step w ev) as [w1|] eqn:Hstep; [|done].
    eapply IH; [by eapply step_accounted | done].
Qed.

Lemma step_leak (w w' : world) (ev : event) (t : terminal) :
  accounted w → t ∈ live w → _terminal (mgr w) ≠ Some t →
  step w ev = Some w' →
  t ∈ live w' ∧ _terminal (mgr w') ≠ Some t.
Proof.
  intros (Hbelow & _ & _ & _ & Hlive & _) Hin Hnot Hstep.
  assert (Hlt : (t < next_terminal w)%nat).
  { apply Hbelow. by apply Hlive in Hin as [? _]. }
  destruct (step_terminals _ _ _ Hstep)
    as [(Hl & _ & _ & _ & Ho)
       |[(Hl & _ & _ & _ & Ho)
        |(t' & Ht' & Hl & _ & _ & _ & Ho)]]; rewrite Hl, Ho.
  - done.
  - split; [apply elem_of_union; by right|]. intros [= Heq]. lia.
  - split; [|done]. apply elem_of_difference. split; [done|].
    rewrite elem_of_singleton. congruence.
Qed.

Lemma run_leak (evs : list event) (w w' : world) (t : terminal) :
  accounted w → t ∈ live w → _terminal (mgr w) ≠ Some t →
  run w evs = Some w' →
  t ∈ live w' ∧ _terminal (mgr w') ≠ Some t.
Proof.
  revert w. induction evs as [|ev evs IH]; intros w Hw Hin Hnot H; simpl in H.
  - by simplify_eq.
  - destruct (step w ev) as [w1|] eqn:Hstep; [|done]. simpl in H.
    destruct (step_leak _ _ _ _ Hw Hin Hnot Hstep) as [Hin1 Hnot1].
    eapply IH; [by eapply step_accounted | done | done | done].
Qed.

(** X5: in every interleaving the terminals are accounted for by the log:
    no terminal is created twice or disposed twice, only created ones are
    disposed, the live ones are those created and not yet disposed, and the
    one the class owns is live.  So [stopServer] never disposes a terminal
    that is already gone; and a live terminal that the class no longer
    owns stays live whatever is called afterwards. *)
Theorem terminals_accounted (evs : list event) (w : world) :
  run boot evs = Some w →
  NoDup (created (log w))
  ∧ NoDup (disposed (log w))
  ∧ (∀ t, t ∈ disposed (log w) → t ∈ created (log w))
  ∧ (∀ t, t ∈ live w ↔ t ∈ created (log w) ∧ t ∉ disposed (log w))
  ∧ (∀ t, _terminal (mgr w) = Some t → t ∈ live w)
  ∧ (∀ t evs' w', t ∈ live w → _terminal (mgr w) ≠ Some t →
                  run w evs' = Some w' →
                  t ∈ live w' ∧ _terminal (mgr w') ≠ Some t).
Proof.
  intros Hrun.
  pose proof (run_accounted _ _ _ boot_accounted Hrun) as Hacc.
  destruct (Hacc) as (Hbelow & Hcr & Hdi & Hsub & Hlive & Howned).
  split_and!; try done.
  intros t evs' w' Hin Hnot Hrun'. by eapply run_leak.
Qed.

Lemma terminals_accounted_witness :
  ∃ w, run boot [CallStart false; ProbeDone 0 (Probe.Refuses 0);
                 CallStart false; ProbeDone 1 (Probe.Refuses 0);
                 CallStop; CallStop] = Some w
       ∧ NoDup (disposed (log w)).
Proof.
  exists (default boot (run boot [CallStart false; ProbeDone 0 (Probe.Refuses 0);
                                  CallStart false; ProbeDone 1 (Probe.Refuses 0);
                                  CallStop; CallStop])).
  split; [vm_compute; reflexivity|].
  refine (proj1 (proj2 (terminals_accounted
    [CallStart false; ProbeDone 0 (Probe.Refuses 0);
     CallStart false; ProbeDone 1 (Probe.Refuses 0); CallStop; CallStop] _ _))).
  vm_compute. reflexivity.
Defined.

(** *** The Node.js path *)

Ltac bytes :=
  unfold is_space, is_space2, is_space3 in *; cbv zeta in *;
  repeat (progress
            (rewrite ?orb_true_iff, ?andb_true_iff, ?Nat.eqb_eq, ?Nat.leb_le
               in * )).

Lemma space_not_second (x y : Ascii.ascii) :
  is_space y = true → is_space2 x y = false.
Proof.
  intros Hy. apply not_true_iff_false. intros H. bytes. lia.
Qed.

(** The byte a run of white space can start with. *)
Lemma strip_head (d : bool) (x : Ascii.ascii) (l : list Ascii.ascii) :
  strip d (x :: l) = [] →
  let n := Ascii.nat_of_ascii x in
  if d
  then (n ≤ 32 ∨ n = 160 ∨ 128 ≤ n ≤ 138 ∨ n = 168 ∨ n = 169 ∨ n = 175
        ∨ n = 159 ∨ n = 191)%nat
  else (n ≤ 32 ∨ n = 194 ∨ n = 225 ∨ n = 226 ∨ n = 227 ∨ n = 239)%nat.
Proof.
  intros H n. subst n. cbn [strip] in H.
  destruct (is_space x) eqn:Hx.
  { clear H. destruct d; bytes; lia. }
  destruct l as [|y l]; [done|].
  destruct d.
  - destruct (is_space2 y x) eqn:H2; [clear H; bytes; lia|].
    destruct l as [|z l]; [done|].
    destruct (is_space3 z y x) eqn:H3; [|done]. clear H H2 Hx. bytes. lia.
  - destruct (is_space2 x y) eqn:H2; [clear H; bytes; lia|].
    destruct l as [|z l]; [done|].
    destruct (is_space3 x y z) eqn:H3; [|done]. clear H H2 Hx. bytes. lia.
Qed.

Lemma strip_app (d : bool) (n : nat) :
  ∀ ws l : list Ascii.ascii,
    (length ws ≤ n)%nat → strip d ws = [] → strip d (ws ++ l) = strip d l.
Proof.
  induction n as [|n IH]; intros ws l Hn Hws.
  { destruct ws; [done | simpl in Hn; lia]. }
  destruct ws as [|x ws]; [done|]. cbn [strip app] in *. simpl in Hn.
  destruct (is_space x); [apply IH; [lia | done]|].
  destruct ws as [|y ws]; [done|]. cbn [app]. simpl in Hn.
  destruct (if d then is_space2 y x else is_space2 x y);
    [apply IH; [lia | done]|].
  destruct ws as [|z ws]; [done|]. cbn [app]. simpl in Hn.
  destruct (if d then is_space3 z y x else is_space3 x y z);
    [apply IH; [lia | done] | done].
Qed.

(** White space read from its end is white space. *)
Lemma strip_rev (n : nat) :
  ∀ ws : list Ascii.ascii,
    (length ws ≤ n)%nat → strip false ws = [] → strip true (rev ws) = [].
Proof.
  induction n as [|n IH]; intros ws Hn Hws.
  { destruct ws; [done | simpl in Hn; lia]. }
  destruct ws as [|x ws]; [done|]. cbn [strip] in Hws. simpl in Hn.
  destruct (is_space x) eqn:Hx.
  { cbn [rev]. rewrite (strip_app true (length (rev ws))); [|done|].
    - cbn [strip]. by rewrite Hx.
    - apply IH; [lia | done]. }
  destruct ws as [|y ws]; [done|]. simpl in Hn.
  destruct (is_space2 x y) eqn:H2.
  { cbn [rev]. rewrite <- app_assoc.
    rewrite (strip_app true (length (rev ws))); [|done|].
    - cbn [strip app]. rewrite H2.
      assert (is_space y = false) as ->; [|done].
      apply not_true_iff_false. intros Hy. clear Hws. bytes. lia.
    - apply IH; [lia | done]. }
  destruct ws as [|z ws]; [done|]. simpl in Hn.
  destruct (is_space3 x y z) eqn:H3; [|done].
  cbn [rev]. rewrite <- !app_assoc.
  rewrite (strip_app true (length (rev ws))); [|done|].
  - cbn [strip app]. rewrite H3.
    assert (is_space z = false) as ->.
    { apply not_true_iff_false. intros Hz. clear Hws. bytes. lia. }
    assert (is_space2 y z = false) as ->; [|done].
    apply not_true_iff_false. intros Hz. clear Hws. bytes. lia.
  - apply IH; [lia | done].
Qed.

(** White space after a text does not change what is removed before it. *)
Lemma strip_before (n : nat) :
  ∀ l ws : list Ascii.ascii,
    (length l ≤ n)%nat → strip false ws = [] →
    strip false (l ++ ws)
    = match strip false l with
      | [] => []
      | t => t ++ ws
      end.
Proof.
  induction n as [|n IH]; intros l ws Hn Hws.
  { destruct l; [exact Hws | simpl in Hn; lia]. }
  destruct l as [|x l]; [exact Hws|]. cbn [strip app]. simpl in Hn.
  destruct (is_space x) eqn:Hx; [apply IH; [lia | done]|].
  destruct l as [|y l]; cbn [app].
  { destruct ws as [|y ws]; [done|].
    pose proof (strip_head false y ws Hws) as Hy. cbv zeta in Hy.
    assert (is_space2 x y = false) as ->.
    { apply not_true_iff_false. intros H. clear Hws Hx. bytes. lia. }
    destruct ws as [|z ws]; [done|].
    assert (is_space3 x y z = false) as ->; [|done].
    apply not_true_iff_false. intros H. clear Hws Hx. bytes. lia. }
  simpl in Hn.
  destruct (is_space2 x y) eqn:H2; [apply IH; [lia | done]|].
  destruct l as [|z l]; cbn [app].
  { destruct ws as [|z ws]; [done|].
    pose proof (strip_head false z ws Hws) as Hz. cbv zeta in Hz.
    assert (is_space3 x y z = false) as ->; [|done].
    apply not_true_iff_false. intros H. clear Hws Hx H2. bytes. lia. }
  simpl in Hn.
  destruct (is_space3 x y z); [apply IH; [lia | done] | done].
Qed.

Lemma list_ascii_app (s1 s2 : string) :
  String.list_ascii_of_string (s1 +:+ s2)
  = String.list_ascii_of_string s1 ++ String.list_ascii_of_string s2.
Proof. induction s1 as [|a s1 IH]; simpl; [done | by rewrite IH]. Qed.

Lemma blank_strip (ws : string) :
  blank ws = true → strip false (String.list_ascii_of_string ws) = [].
Proof. unfold blank. by destruct (strip false _). Qed.

(** [trim] takes away white space on both sides. *)
Lemma trim_blank (ws1 s ws2 : string) :
  blank ws1 = true → blank ws2 = true →
  trim (ws1 +:+ s +:+ ws2) = trim s.
Proof.
  intros H1%blank_strip H2%blank_strip. unfold trim, trimStart, trimEnd.
  rewrite !String.list_ascii_of_string_of_list_ascii, !list_ascii_app.
  rewrite (strip_app false _ _ _ (Nat.le_refl _) H1).
  rewrite (strip_before _ _ _ (Nat.le_refl _) H2).
  destruct (strip false (String.list_ascii_of_string s)) as [|x t]; [done|].
  rewrite rev_app_distr.
  rewrite (strip_app true _ _ _ (Nat.le_refl _)
             (strip_rev _ _ (Nat.le_refl _) H2)).
  done.
Qed.

Lemma startsWith_v_truthy (s : string) :
  startsWith (trim s) "v" = true → truthy s = true.
Proof. by destruct s. Qed.

(** X6: [validateNodejsPath] accepts exactly an empty setting, or a directory
    that exists and whose [node --version] prints something that, trimmed,
    starts with [v]; the test that the output is not empty adds nothing.
    White space around the output, of any kind that [trim] removes, such as
    the final newline or a no-break space, changes neither the verdict nor
    the message. *)
Theorem validateNodejsPath_accepts (path : string) (found : bool)
    (version : option string) :
  ((validateNodejsPath path found version).1 = true ↔
   path = "" ∨ (found = true
                ∧ ∃ stdout, version = Some stdout
                            ∧ startsWith (trim stdout) "v" = true))
  ∧ (∀ ws1 s ws2, blank ws1 = true → blank ws2 = true →
       validateNodejsPath path found (Some (ws1 +:+ s +:+ ws2))
       = validateNodejsPath path found (Some s)).
Proof.
  split.
  - unfold validateNodejsPath. destruct path as [|a path]; simpl.
    { split; [by left | done]. }
    destruct found; simpl.
    2:{ split; [done | intros [?|[? _]]; done]. }
    destruct version as [stdout|]; simpl.
    2:{ split; [done | intros [?|[_ (? & ? & _)]]; done]. }
    destruct (truthy stdout && startsWith (trim stdout) "v") eqn:Hok; simpl.
    + apply andb_true_iff in Hok as [_ Hv]. split; [|done].
      intros _. right. split; [done|]. by exists stdout.
    + split; [done|]. intros [?|[_ (s & [= <-] & Hv)]]; [done|].
      by rewrite (startsWith_v_truthy _ Hv), Hv in Hok.
  - intros ws1 s ws2 H1 H2. unfold validateNodejsPath.
    destruct (negb (truthy path)); [done|]. destruct (negb found); [done|].
    rewrite trim_blank by done.
    destruct (startsWith (trim s) "v") eqn:Hv.
    + rewrite (startsWith_v_truthy _ Hv).
      assert (truthy (ws1 +:+ s +:+ ws2) = true) as ->; [|done].
      apply startsWith_v_truthy. by rewrite trim_blank.
    + by rewrite !andb_false_r.
Qed.

Lemma validateNodejsPath_accepts_witness :
  let nbsp := String (Ascii.ascii_of_nat 194) (String (Ascii.ascii_of_nat 160) "") in
  let newline := String (Ascii.ascii_of_nat 10) "" in
  validateNodejsPath "/usr/local/bin" true
    (Some (nbsp +:+ "v20.11.0" +:+ newline))
  = validateNodejsPath "/usr/local/bin" true (Some "v20.11.0").
Proof.
  intros nbsp newline.
  refine (proj2 (validateNodejsPath_accepts "/usr/local/bin" true None)
                nbsp "v20.11.0" newline _ _); vm_compute; reflexivity.
Defined.

(** X7: with a Node.js path that fails validation, [startServer] rejects
    after showing one error message and nothing else: no probe is sent, no
    terminal is created, the cached flag, the owned terminal and the start
    time are untouched.  The cached port, however, has already been
    overwritten with the setting, so later [isServerRunning] and
    [stopServer] probe the new port. *)
Theorem invalid_path_only_moves_port (w : world) (uri found : bool)
    (version : option string) (r : Probe.remote) :
  truthy (nodejsPath (config w)) = true →
  (validateNodejsPath (nodejsPath (config w)) found version).1 = false →
  ∃ w' m, solo_start w uri found version r = Some w'
          ∧ outcomes w' !! next_call w = Some (StartRejected InvalidNodejsPath)
          ∧ tasks w' !! next_call w = None
          ∧ log w' = ShowErrorMessage m :: log w
          ∧ mgr w' = set_serverPort (serverPort (config w)) (mgr w)
          ∧ live w' = live w
          ∧ now w' = now w.
Proof.
  intros Hpath Hbad.
  destruct w as [[? ? ? ?] [sp path] ? ? ? ? nc ? ?].
  fields in Hpath. fields in Hbad.
  unfold solo_start. cbn [step mbind option_bind]. unfold startServer. fields.
  rewrite Hpath. cbn [step]. fields. rewrite lookup_insert_eq.
  destruct (validateNodejsPath path found version) as [isValid shown] eqn:Hv.
  simpl in Hbad. subst isValid.
  assert (∃ m, shown = ShowErrorMessage m) as [m ->].
  { unfold validateNodejsPath in Hv. repeat case_match; simplify_eq; eauto. }
  cbn [mbind option_bind]. unfold start_validated. fields.
  rewrite lookup_delete_eq. eexists _, m. split; [reflexivity|].
  fields. split_and!;
    first [apply lookup_insert_eq | apply lookup_delete_eq | reflexivity].
Qed.

Lemma invalid_path_only_moves_port_witness :
  ∃ w' m, solo_start (set_config (Configuration 4000 "/opt/node") boot)
            false false None Probe.Silent = Some w'
          ∧ log w' = [ShowErrorMessage m]
          ∧ _serverPort (mgr w') = 4000.
Proof.
  destruct (invalid_path_only_moves_port
              (set_config (Configuration 4000 "/opt/node") boot)
              false false None Probe.Silent eq_refl eq_refl)
    as (w' & m & Hrun & _ & _ & Hlog & Hmgr & _).
  exists w', m. split_and!; [exact Hrun | exact Hlog |]. by rewrite Hmgr.
Defined.

End ScenarioFacts.

(** ** The workbench panel *)

Module WorkbenchPanelFacts.
Import ServerManager ServerManagerFacts WorkbenchPanel.

Lemma pop_snoc {A} (l : list A) (x : A) : pop (l ++ [x]) = (Some x, l).
Proof. unfold pop. by rewrite last_snoc, removelast_last. Qed.

Lemma drain_snoc {A} (n : nat) (ds : list A) (x : A) (out : list A) :
  drain (S n) (ds ++ [x]) out = drain n ds (x :: out).
Proof.
  cbn [drain]. rewrite pop_snoc, length_app. cbn [length].
  by rewrite Nat.add_1_r.
Qed.

Lemma drain_all {A} (ds out : list A) :
  drain (length ds) ds out = ([], ds ++ out).
Proof.
  revert out. induction ds as [|x ds IH] using rev_ind; intros out; [done|].
  rewrite length_app. cbn [length]. rewrite Nat.add_1_r, drain_snoc, IH.
  by rewrite <- app_assoc.
Qed.

(** X8: [dispose] empties [_disposables]: the loop pops and disposes every
    subscription once, the last one pushed first, and stops with nothing
    left; it also clears [currentPanel] and closes the panel. *)
Theorem dispose_releases_all (p : panel) (ds : list listener) (v : view) :
  drain (length ds) ds [] = ([], ds)
  ∧ released (dispose p ds v) = ((λ d, (p, d)) <$> ds) ++ released v
  ∧ currentPanel (dispose p ds v) = None
  ∧ instances (dispose p ds v) !! p = None.
Proof.
  unfold dispose. rewrite drain_all, app_nil_r. cbn.
  split_and!; try done. apply lookup_delete_eq.
Qed.

Lemma closed_single : single closed.
Proof. done. Qed.

Lemma step_single (v v' : view) (ev : event) :
  single v → step v ev = Some v' → single v'.
Proof.
  unfold single. intros Hv H. destruct v as [cur inst nxt rel].
  destruct ev as [|p]; cbn in *.
  - simplify_eq. unfold createOrShow. cbn. destruct cur as [q|]; cbn; [done|].
    subst inst. by rewrite insert_empty, dom_singleton_L.
  - destruct (inst !! p) as [ds|] eqn:Hp; [|done]. simplify_eq.
    unfold dispose. destruct (drain (length ds) ds []) as [rest out]. cbn.
    destruct cur as [q|].
    + assert (p = q) as ->.
      { apply elem_of_dom_2 in Hp. rewrite Hv in Hp.
        by apply elem_of_singleton in Hp. }
      apply dom_empty_iff_L. rewrite dom_delete_L, Hv.
      apply set_eq. intros x. rewrite elem_of_difference, elem_of_singleton.
      split; [intros [? ?]; done | intros Hx; by apply elem_of_empty in Hx].
    + subst inst. by rewrite lookup_empty in Hp.
Qed.

(** X9: however [createOrShow] calls and closings of the panel follow one
    another, at most one webview panel is open, and [currentPanel] names it:
    a [createOrShow] while a panel is open opens no second one, and one
    after the panel was closed opens a fresh panel. *)
Theorem one_panel (evs : list event) (v : view) :
  run closed evs = Some v →
  (size (instances v) ≤ 1)%nat
  ∧ (∀ p, currentPanel v = Some p ↔ is_Some (instances v !! p))
  ∧ (is_Some (currentPanel v) →
     (createOrShow v).1 = v ∧ currentPanel v = Some (createOrShow v).2)
  ∧ (currentPanel v = None →
     instances (createOrShow v).1
     = {[next_panel v := [OnDidDispose; OnDidChangeViewState;
                          OnDidReceiveMessage]]}).
Proof.
  intros Hrun.
  assert (Hs : single v).
  { revert Hrun. generalize closed_single. generalize closed.
    induction evs as [|ev evs IH]; intros v0 Hv0 H; simpl in H.
    - by simplify_eq.
    - destruct (step v0 ev) as [v1|] eqn:Hstep; [|done].
      eapply IH; [by eapply step_single | done]. }
  unfold single in Hs. destruct v as [[q|] inst nxt rel]; cbn in *.
  - split_and!.
    + rewrite <- size_dom, Hs, size_singleton. lia.
    + intros p. rewrite <- elem_of_dom, Hs, elem_of_singleton.
      split; [by intros [= ->] | by intros ->].
    + done.
    + done.
  - subst inst. split_and!.
    + rewrite map_size_empty. lia.
    + intros p. rewrite lookup_empty. split; [done | by intros [? ?]].
    + by intros [? ?].
    + intros _. by rewrite insert_empty.
Qed.

Lemma one_panel_witness :
  ∃ v, run closed [CreateOrShow; CreateOrShow; Closed 0%nat; CreateOrShow] = Some v
       ∧ (size (instances v) ≤ 1)%nat.
Proof.
  exists (default closed
            (run closed [CreateOrShow; CreateOrShow; Closed 0%nat; CreateOrShow])).
  split; [vm_compute; reflexivity|].
  refine (proj1 (one_panel [CreateOrShow; CreateOrShow; Closed 0%nat; CreateOrShow]
                           _ _)).
  vm_compute. reflexivity.
Defined.

Lemma isServerRunning_run (w : world) (r : Probe.remote) :
  ServerManager.run w [CallIsServerRunning; wait (Probe.duration r);
                       ProbeDone (next_call w) r]
  = Some (settle (next_call w)
            (match Probe.checkIfServerRunning (_serverPort (mgr w)) r with
             | RejectedWith e => IsRunningRejected e
             | _ => IsRunningResolved (succeeds r)
             end)
            (set_now (now w + Z.max 0 (Probe.duration r))
               (isServerRunning (next_call w) (called w)))).
Proof.
  pose proof (ProbeFacts.duration_bounds r) as Hd.
  destruct w as [[? ? p ?] ? ? ? ? ? ? ? ?].
  erewrite run_cons by reflexivity.
  erewrite run_cons by apply step_wait.
  cbn [mgr _serverPort]. destruct (Probe.valid_port p) eqn:Hp.
  - rewrite succeeds_spec by done. erewrite run_cons; [reflexivity|].
    eapply step_isRunning_probe; unfold isServerRunning, probe_then; fields;
      [apply lookup_insert_eq | lia | exact Hp].
  - rewrite ProbeFacts.checkIfServerRunning_rejected by done.
    erewrite run_cons; [reflexivity|].
    eapply step_isRunning_probe_rejected;
      unfold isServerRunning, probe_then; fields;
      [apply lookup_insert_eq | lia | exact Hp].
Qed.

(** X10: [_update] decides between its two documents by probing the
    cached port, the one the latest [startServer] read, but frames the port
    the settings hold when it is called.  After the setting was changed the
    webview therefore frames a port that was never probed.  The update
    itself changes nothing the coordinator keeps.  (When Node rejects the
    probe, [_update] rejects with the same error and sets no document.) *)
Theorem update_frames_settings_port (evs : list ServerManager.event)
    (w : world) (r : Probe.remote) :
  ServerManager.run boot evs = Some w →
  ∃ w', _update w r =
          Some (w', match Probe.checkIfServerRunning
                            (captured_port defaults 3000 evs) r with
                    | Fulfilled true =>
                        Fulfilled (FramePage (serverPort (config w)))
                    | Fulfilled false => Fulfilled NotRunningPage
                    | RejectedWith e => RejectedWith e
                    | Pending => Pending
                    end)
        ∧ log w' = HttpGet (captured_port defaults 3000 evs) :: log w
        ∧ mgr w' = mgr w
        ∧ live w' = live w.
Proof.
  intros Hrun. apply run_port in Hrun. cbn in Hrun.
  unfold _update. rewrite isServerRunning_run. cbn [mbind option_bind].
  rewrite <- Hrun.
  destruct w as [[? ? p ?] ? ? ? ? ? ? ? ?]. clear Hrun.
  unfold isServerRunning, probe_then. fields. rewrite lookup_insert_eq.
  destruct (Probe.valid_port p) eqn:Hp.
  - rewrite succeeds_spec by done. unfold _getHtmlForWebview.
    destruct (succeeds r); cbn [negb];
      (eexists; split; [reflexivity|]); fields; by split_and!.
  - rewrite ProbeFacts.checkIfServerRunning_rejected by done.
    eexists. split; [reflexivity|]. fields. by split_and!.
Qed.

Lemma update_frames_settings_port_witness :
  ∃ w w', ServerManager.run boot
            [CallStart false; ChangeSettings (Configuration 4000 "")] = Some w
          ∧ _update w (Probe.Responds 0 200)
            = Some (w', Fulfilled (FramePage 4000))
          ∧ log w' = HttpGet 3000 :: log w.
Proof.
  pose (w := default boot (ServerManager.run boot
               [CallStart false; ChangeSettings (Configuration 4000 "")])).
  destruct (update_frames_settings_port
              [CallStart false; ChangeSettings (Configuration 4000 "")] w
              (Probe.Responds 0 200))
    as (w' & Hup & Hlog & _).
  - vm_compute. reflexivity.
  - exists w, w'. split_and!; [vm_compute; reflexivity | exact Hup | exact Hlog].
Defined.

End WorkbenchPanelFacts.

(** ** More on project detection, and activation *)

Module DetectionFacts.
Import ProjectDetector ProjectDetectorFacts Extension.
#[local] Existing Instance completion_bind.

Lemma isMotiaProject_detects (fs : filesystem) (folders : list string) :
  isMotiaProject fs (Some folders) = Normal (existsb (detects fs) folders).
Proof. destruct folders; [reflexivity|]. apply checkFolders_detects. Qed.

Lemma existsb_Permutation {A} (f : A → bool) (l1 l2 : list A) :
  l1 ≡ₚ l2 → existsb f l1 = existsb f l2.
Proof.
  induction 1 as [|x l1 l2 _ IH|x y l|l1 l2 l3 _ IH1 _ IH2]; simpl.
  - done.
  - by rewrite IH.
  - by destruct (f x), (f y).
  - by rewrite IH1.
Qed.

(** X11: detection does not depend on the order of the workspace folders,
    and a workspace that is detected stays detected when folders are added
    before or after. *)
Theorem folder_order_irrelevant (fs : filesystem) (l1 l2 : list string) :
  (l1 ≡ₚ l2 → isMotiaProject fs (Some l1) = isMotiaProject fs (Some l2))
  ∧ (isMotiaProject fs (Some l1) = Normal true →
     isMotiaProject fs (Some (l1 ++ l2)) = Normal true
     ∧ isMotiaProject fs (Some (l2 ++ l1)) = Normal true).
Proof.
  rewrite !isMotiaProject_detects. split.
  - intros Hp. by rewrite (existsb_Permutation _ _ _ Hp).
  - intros [= Hd]. rewrite !existsb_app, Hd. by rewrite orb_true_r.
Qed.

Lemma folder_order_irrelevant_witness :
  isMotiaProject sample_workspace (Some ["/work/app"; "/work/broken"])
  = isMotiaProject sample_workspace (Some ["/work/broken"; "/work/app"]).
Proof.
  refine (proj1 (folder_order_irrelevant sample_workspace
                   ["/work/app"; "/work/broken"]
                   ["/work/broken"; "/work/app"]) _).
  apply perm_swap.
Defined.

(** X12: a [steps] directory in any workspace folder is enough, whatever
    the manifests in that folder or in the others contain, parsable or not;
    a [steps] that is a file is not, and without a manifest such a folder
    does not count. *)
Theorem steps_directory_suffices (fs : filesystem) (folders : list string)
    (folder : string) :
  (folder ∈ folders →
   fs (path_join folder "steps") = Some Directory →
   isMotiaProject fs (Some folders) = Normal true)
  ∧ (∀ parsed, fs (path_join folder "steps") = Some (File parsed) →
               fs (path_join folder "package.json") = None →
               checkFolder fs folder = Normal false).
Proof.
  split.
  - intros Hin Hsteps. rewrite isMotiaProject_detects. f_equal.
    apply existsb_exists. exists folder. split; [by apply list_elem_of_In|].
    unfold detects. by rewrite Hsteps.
  - intros parsed Hfile Hnone. rewrite checkFolder_detects.
    unfold detects. by rewrite Hfile, Hnone.
Qed.

Lemma steps_directory_suffices_witness :
  let fs : filesystem := λ p,
    if String.eqb p "/work/flows/steps" then Some Directory
    else if String.eqb p "/work/flows/package.json" then Some (File None)
    else None in
  isMotiaProject fs (Some ["/work/other"; "/work/flows"]) = Normal true.
Proof.
  intros fs.
  refine (proj1 (steps_directory_suffices fs ["/work/other"; "/work/flows"]
                   "/work/flows") _ _).
  - apply list_elem_of_In. right. by left.
  - vm_compute. reflexivity.
Defined.

Lemma prefix_app (p s : string) :
  String.prefix p s = true ↔ ∃ rest, s = p +:+ rest.
Proof.
  revert s. induction p as [|a p IH]; intros s.
  - split; [intros _; by exists s | by destruct s].
  - destruct s as [|b s]; simpl; [split; [done | by intros [? ?]]|].
    destruct (Ascii.ascii_dec a b) as [->|Hne].
    + rewrite IH. split; intros [rest Hr]; exists rest.
      * by rewrite Hr.
      * simpl in Hr. by injection Hr.
    + split; [done|]. intros [rest Hr]. simpl in Hr. by injection Hr.
Qed.

Lemma isMotiaDependency_name (dep : string) :
  isMotiaDependency dep = true ↔ motia_name dep.
Proof.
  unfold isMotiaDependency, motia_name, startsWith.
  rewrite orb_true_iff, prefix_app, String.eqb_eq. tauto.
Qed.

Lemma digit_not_motia (d : Ascii.ascii) (s : string) :
  digit d = true → isMotiaDependency (String d s) = false.
Proof.
  intros Hd. apply not_true_is_false. rewrite isMotiaDependency_name.
  intros [[= -> _]|[rest [= -> _]]]; by vm_compute in Hd.
Qed.

Lemma pretty_N_char_digit (x : N) : digit (pretty_N_char x) = true.
Proof. unfold pretty_N_char. by repeat case_match. Qed.

Lemma pretty_N_go_head (x : N) :
  ∀ s, (0 < x)%N →
       ∃ d s', pretty_N_go x s = String d s' ∧ digit d = true.
Proof.
  induction (N.lt_wf_0 x) as [x _ IH]. intros s Hx.
  rewrite pretty_N_go_step by done.
  destruct (decide (x `div` 10 = 0)%N) as [->|Hy].
  - rewrite pretty_N_go_0. eexists _, _. split; [done|].
    apply pretty_N_char_digit.
  - apply IH; [apply N.div_lt; lia | by apply N.neq_0_lt_0].
Qed.

Lemma pretty_nat_head (n : nat) :
  ∃ d s, pretty n = String d s ∧ digit d = true.
Proof.
  unfold pretty, pretty_nat, pretty, pretty_N.
  destruct (decide (N.of_nat n = 0)%N) as [_|Hn].
  - by eexists _, _.
  - apply pretty_N_go_head. by apply N.neq_0_lt_0.
Qed.

Lemma indices_not_motia (n : nat) : existsb isMotiaDependency (indices n) = false.
Proof.
  unfold indices. generalize 0%nat.
  induction n as [|n IH]; intros k; simpl; [done|].
  destruct (pretty_nat_head k) as (d & s & -> & Hd).
  by rewrite (digit_not_motia _ _ Hd), IH.
Qed.

Lemma spread_not_object (v : option json) :
  (∀ members, v ≠ Some (JObject members)) →
  existsb isMotiaDependency (spread v) = false.
Proof.
  intros Hv. destruct v as [[| | | |items|members]|]; simpl; try done.
  - apply indices_not_motia.
  - apply indices_not_motia.
  - by destruct (Hv members).
Qed.

(** X13: a manifest counts exactly when one of the names it lists, as a
    key of an object under [dependencies] or under [devDependencies], is
    [motia] or starts with [@motiadev/]; names such as [motia-cli] or
    [@motiadev] alone do not.  Only the keys of an object are names: when
    [dependencies] is an array or a string, as in ["dependencies":
    ["motia"]], nothing in it is looked at. *)
Theorem manifest_names (fs : filesystem) (folder : string)
    (members : list (string * json)) :
  fs (path_join folder "package.json") = Some (File (Some (JObject members))) →
  let names v := match v with Some (JObject deps) => deps.*1 | _ => [] end in
  hasMotiaDependency fs (path_join folder "package.json") =
    Normal (existsb isMotiaDependency
              (names (member "dependencies" members)
               ++ names (member "devDependencies" members)))
  ∧ (∀ dep, isMotiaDependency dep = true ↔ motia_name dep)
  ∧ isMotiaDependency "motia-cli" = false
  ∧ isMotiaDependency "@motiadev" = false.
Proof.
  intros Hfile names. split_and!.
  - unfold hasMotiaDependency, readAndParse. rewrite Hfile.
    cbn [mbind completion_bind get]. f_equal. rewrite !existsb_app.
    f_equal.
    + destruct (member "dependencies" members) as [[| | | |?|?]|] eqn:E;
        try done; by rewrite spread_not_object.
    + destruct (member "devDependencies" members) as [[| | | |?|?]|] eqn:E;
        try done; by rewrite spread_not_object.
  - apply isMotiaDependency_name.
  - reflexivity.
  - reflexivity.
Qed.

Lemma manifest_names_witness :
  let fs : filesystem := λ p,
    if String.eqb p "/w/package.json"
    then Some (File (Some (JObject
           [("dependencies", JArray [JString "motia"]);
            ("devDependencies", JObject [("motia-cli", JString "1.0.0")])])))
    else None in
  hasMotiaDependency fs (path_join "/w" "package.json") = Normal false.
Proof.
  intros fs.
  refine (proj1 (manifest_names fs "/w"
    [("dependencies", JArray [JString "motia"]);
     ("devDependencies", JObject [("motia-cli", JString "1.0.0")])] _)).
  vm_compute. reflexivity.
Defined.

(** Settles a statement about a run of [activate] in which every call made
    is known to throw or not. *)
Ltac finished :=
  cbn [decide_rel decide fmap]; cbn;
  split_and!; [done | done | | |];
  rewrite ?elem_of_cons, ?elem_of_nil; split; intros H;
  repeat first [ destruct_or! | destruct_and!
               | match goal with
                 | H : is_Some _ |- _ => destruct H
                 | H : ∃ _, _ |- _ => destruct H
                 end ];
  simplify_eq; solve [done | eauto 20].

(** X14: [activate] never rejects, whatever the editor and the server do.
    In a workspace where no folder has a [steps] directory or a manifest
    naming a Motia dependency it calls nothing.  In a Motia project it
    creates and shows the status bar item, registers the three commands and
    reads the settings, in that order, up to the first of these calls that
    throws; then it logs the error and does nothing more.  It starts the
    server exactly when none of them has thrown and [autoStartServer] is
    set; a start that fails is logged, and a start that never settles
    leaves [activate] pending. *)
Theorem activate_contributes (h : host) (fs : filesystem)
    (workspaceFolders : option (list string)) :
  let detected := existsb (detects fs) (default [] workspaceFolders) in
  let result := activate h fs workspaceFolders in
  let failed := list_find (λ c, throws h c = true) contributions in
  (∀ e, result.2 ≠ RejectedWith e)
  ∧ calls result.1 =
      (if detected
       then match failed with
            | Some (k, _) => take k contributions
            | None =>
                contributions ++ (if autoStartServer h then [StartServer] else [])
            end
       else [])
  ∧ (ConsoleError "Error activating Motia extension:" ∈ result.1
     ↔ detected = true ∧ is_Some failed)
  ∧ (result.2 = Pending
     ↔ StartServer ∈ calls result.1 ∧ started h = Pending)
  ∧ (ConsoleError "Error auto-starting Motia server:" ∈ result.1
     ↔ StartServer ∈ calls result.1 ∧ ∃ e, started h = RejectedWith e).
Proof.
  intros detected result failed. subst result failed.
  unfold activate, detect.
  assert (isMotiaProject fs workspaceFolders = Normal detected) as ->.
  { subst detected. destruct workspaceFolders as [folders|]; [|done].
    apply isMotiaProject_detects. }
  unfold contributions, perform, startServer.
  destruct detected; cbn [list_find].
  2:{ finished. }
  destruct (throws h CreateStatusBarItem) eqn:Hthrows1; [finished|].
  destruct (throws h ShowStatusBarItem) eqn:Hthrows2; [finished|].
  destruct (throws h (RegisterCommand "motia.openWorkbench")) eqn:Hthrows3;
    [finished|].
  destruct (throws h (RegisterCommand "motia.startServer")) eqn:Hthrows4;
    [finished|].
  destruct (throws h (RegisterCommand "motia.stopServer")) eqn:Hthrows5;
    [finished|].
  destruct (throws h GetConfiguration) eqn:Hthrows6; [finished|].
  destruct (autoStartServer h), (started h); finished.
Qed.

End DetectionFacts.
